(** * termux-exec-compat: a shallow embedding of [termux_exec_compat.c]

    The shim interposes on the [exec] family.  The functions of the C file
    are embedded below under their own names.  C strings are [string]s, a
    pointer that may be [NULL] is an [option], the process and the system
    it runs on (environment block, files, allocator, the next [execve]
    found by [dlsym]) are gathered in a [world] record, and the calls made
    to the underlying [execve] are recorded in the [outcome] of each
    entry point.  [init_real_execve] and the static [real_execve_fn] are
    the field [dlsym_execve] of the world: the resolved function is passed
    to the two helpers that call it. *)

From Stdlib Require Import ZArith Ascii String Bool Lia.
From stdpp Require Import base list strings.

Local Open Scope Z_scope.

(** ** Constants of the platform headers *)

(** [PATH_MAX] of <limits.h> (Linux and Android's Bionic). *)
Definition PATH_MAX : Z := 4096.

(** [errno] values of <errno.h> (Linux). *)
Definition ENOENT : Z := 2.
Definition ENOEXEC : Z := 8.
Definition ENOMEM : Z := 12.
Definition EACCES : Z := 13.
Definition ENOTDIR : Z := 20.
Definition ENOSYS : Z := 38.

(** ** Data *)

(** [char *const argv[]]: [None] is the [NULL] pointer; otherwise the
    pointer slots found in memory from [argv[0]] on, a [None] slot being a
    [NULL] entry.  Slots behind the first [NULL] entry are part of the
    memory but not of the argument vector. *)
Definition argv_t : Type := option (list (option string)).

(** [char *const envp[]]: [None] is the [NULL] pointer. *)
Definition envp_t : Type := option (list string).

(** One call of the underlying [execve]. *)
Record exec_call : Type := ExecCall {
  call_path : option string;
  call_argv : argv_t;
  call_envp : envp_t
}.

(** What [open] followed by [read] finds at a path. *)
Inductive node : Type :=
| RegularFile (content : string)
| Unreadable.

Record world : Type := World {
  (** [extern char **environ] *)
  environ : envp_t;
  (** [open(path, O_RDONLY | O_CLOEXEC)]: [None] when it fails *)
  fs_open : string -> option node;
  (** [access(path, X_OK) == 0] *)
  fs_access_x : string -> bool;
  (** [dlsym(RTLD_NEXT, "execve")]: [None] when it yields [NULL]; the
      function answers [None] when the process image is replaced (the call
      does not return) and [Some e] when it returns -1 with [errno = e] *)
  dlsym_execve : option (exec_call -> option Z);
  (** [calloc(n, sizeof(char * ))] succeeds *)
  calloc_ok : nat -> bool;
  (** [strdup(s)] succeeds *)
  strdup_ok : string -> bool
}.

(** The result of an entry point: the calls of the underlying [execve] it
    made, in order, and [None] when the last of them replaced the process
    image, [Some e] when the entry point returned -1 with [errno = e]. *)
Record outcome : Type := Outcome {
  calls : list exec_call;
  result : option Z
}.

(** [typedef struct { ... } shebang_info_t] *)
Record shebang_info_t : Type := ShebangInfo {
  interpreter : string;
  arg : string;
  has_arg : bool
}.

(** ** C string helpers *)

(** A [string] holds the bytes of a C string before its terminator; only
    the bytes read from a file may contain [NUL]. *)
Definition NUL : ascii := Ascii.zero.

(** [s[0] == '\0'] for a C string. *)
Definition is_empty (s : string) : bool :=
  match s with
  | EmptyString => true
  | String _ _ => false
  end.

(** [*p] for a pointer into a NUL-terminated buffer. *)
Definition deref (p : string) : ascii :=
  match p with
  | EmptyString => NUL
  | String c _ => c
  end.

(** [p + k] *)
Fixpoint ptr_add (p : string) (k : nat) {struct k} : string :=
  match k, p with
  | O, _ => p
  | S k', String _ r => ptr_add r k'
  | S _, EmptyString => EmptyString
  end.

(** The first [k] bytes at [p] ([memcpy], bounded [read]). *)
Fixpoint take_bytes (k : nat) (p : string) : string :=
  match k, p with
  | S k', String c r => String c (take_bytes k' r)
  | _, _ => EmptyString
  end.

Definition strlen (s : string) : Z := Z.of_nat (String.length s).

(** [strstr(hay, needle)]: the suffix of [hay] at the first occurrence. *)
Fixpoint strstr (hay needle : string) : option string :=
  if String.prefix needle hay then Some hay
  else match hay with
       | EmptyString => None
       | String _ r => strstr r needle
       end.

(** [strchr(s, c)] *)
Fixpoint strchr (s : string) (c : ascii) : option string :=
  match s with
  | EmptyString => None
  | String d r => if Ascii.eqb d c then Some s else strchr r c
  end.

(** [snprintf(out, out_size, "%s%s", a, b)] for [out_size > 0]: the text
    left in [out] and the returned length of the untruncated text. *)
Definition snprintf_ss (out_size : Z) (a b : string) : string * Z :=
  (take_bytes (Z.to_nat (out_size - 1)) (a +:+ b), strlen (a +:+ b)).

(** [getenv] over an environment block of [NAME=value] entries. *)
Fixpoint getenv_in (env : list string) (name : string) : option string :=
  match env with
  | [] => None
  | e :: rest =>
      if String.prefix (name +:+ "=") e
      then Some (ptr_add e (S (String.length name)))
      else getenv_in rest name
  end.

Definition getenv (w : world) (name : string) : option string :=
  match environ w with
  | None => None
  | Some env => getenv_in env name
  end.

(** ** The functions of the shim *)

Definition starts_with (value prefix : option string) : bool :=
  match value, prefix with
  | Some v, Some p => String.prefix p v
  | _, _ => false
  end.

Definition is_linker_path (path : option string) : bool :=
  match path with
  | None => false
  | Some p => String.eqb p "/system/bin/linker64" || String.eqb p "/system/bin/linker"
  end.

Definition select_system_linker (w : world) : string :=
  if fs_access_x w "/system/bin/linker64"
  then "/system/bin/linker64"
  else "/system/bin/linker".

Definition legacy_data : string := "/data/data/com.termux/files/usr".
Definition legacy_user : string := "/data/user/0/com.termux/files/usr".

(** [map_legacy_termux_usr_path(path, out, out_size)]: the returned flag
    and what the call left in [out] ([None]: [out] was not written).
    Every caller passes a local array for [out], so its [NULL] test is not
    modelled. *)
Definition map_legacy_termux_usr_path (w : world) (path : option string)
    (out_size : Z) : bool * option string :=
  match path with
  | None => (false, None)
  | Some p =>
      if out_size =? 0 then (false, None)
      else
        match getenv w "PREFIX" with
        | None => (false, None)
        | Some prefix =>
            if is_empty prefix then (false, None)
            else
              let suffix :=
                if starts_with (Some p) (Some legacy_data)
                then Some (ptr_add p (String.length legacy_data))
                else if starts_with (Some p) (Some legacy_user)
                then Some (ptr_add p (String.length legacy_user))
                else None in
              match suffix with
              | None => (false, None)
              | Some sfx =>
                  let '(written, n) := snprintf_ss out_size prefix sfx in
                  ((0 <? n) && (n <? out_size), Some written)
              end
        end
  end.

(** [check = buffer] when the remap succeeded, else [check = path]: the
    idiom of all three callers of the remapper. *)
Definition remapped_or (w : world) (path : option string) : option string :=
  match map_legacy_termux_usr_path w path PATH_MAX with
  | (true, Some remapped) => Some remapped
  | _ => path
  end.

Definition nonempty_and_prefix_of (root : option string) (check_path : option string) : bool :=
  match root with
  | None => false
  | Some r => negb (is_empty r) && starts_with check_path (Some r)
  end.

Definition path_in_prefix (w : world) (path : option string) : bool :=
  match path with
  | None => false
  | Some p =>
      if negb (Ascii.eqb (deref p) "/") then false
      else
        let check_path := remapped_or w path in
        if nonempty_and_prefix_of (getenv w "TERMUX__ROOTFS") check_path then true
        else if nonempty_and_prefix_of (getenv w "PREFIX") check_path then true
        else match check_path with
             | Some cp => bool_decide (is_Some (strstr cp "/files/prefix/"))
             | None => false
             end
  end.

(** [open] then one [read] of at most [count] bytes: [None] when [open]
    fails, else the returned count and the bytes read. *)
Definition open_read (w : world) (path : option string) (count : nat)
  : option (Z * string) :=
  match path with
  | None => None
  | Some p =>
      match fs_open w p with
      | None => None
      | Some Unreadable => Some (-1, EmptyString)
      | Some (RegularFile content) =>
          let data := take_bytes count content in
          Some (strlen data, data)
      end
  end.

(** [buf[i]] of a zero-initialised array holding [data]. *)
Definition byte_at (data : string) (i : nat) : ascii :=
  match String.get i data with
  | Some c => c
  | None => NUL
  end.

Definition is_elf_binary (w : world) (path : option string) : bool :=
  match open_read w path 4 with
  | None => false
  | Some (n, magic) =>
      (n =? 4)
      && Ascii.eqb (byte_at magic 0) (ascii_of_nat 127)
      && Ascii.eqb (byte_at magic 1) "E"
      && Ascii.eqb (byte_at magic 2) "L"
      && Ascii.eqb (byte_at magic 3) "F"
  end.

(** The characters of the parser's loops. *)
Definition is_blank (c : ascii) : bool :=
  Ascii.eqb c " " || Ascii.eqb c (ascii_of_nat 9).

Definition is_eol (c : ascii) : bool :=
  Ascii.eqb c (ascii_of_nat 10) || Ascii.eqb c (ascii_of_nat 13).

(** [*end && *end != ' ' && *end != '\t' && *end != '\n' && *end != '\r'] *)
Definition interp_char (c : ascii) : bool :=
  negb (Ascii.eqb c NUL) && negb (is_blank c) && negb (is_eol c).

(** [*arg_end && *arg_end != '\n' && *arg_end != '\r'] *)
Definition arg_char (c : ascii) : bool :=
  negb (Ascii.eqb c NUL) && negb (is_eol c).

(** [while (keep( *p )) p++;] returns the final [p]. *)
Fixpoint advance_while (keep : ascii -> bool) (p : string) : string :=
  match p with
  | EmptyString => p
  | String c r => if keep c then advance_while keep r else p
  end.

(** [end - p] for [end] reached from [p] by increments. *)
Definition ptr_diff (end_ p : string) : Z := strlen p - strlen end_.

Definition parse_shebang (w : world) (path : option string) : option shebang_info_t :=
  match open_read w path 511 with
  | None => None
  | Some (n, data) =>
      if n <=? 2 then None
      else
        (* buf[n] = '\0' *)
        let buf := data +:+ String NUL EmptyString in
        if negb (Ascii.eqb (byte_at buf 0) "#" && Ascii.eqb (byte_at buf 1) "!") then None
        else
          let p := advance_while is_blank (ptr_add buf 2) in
          if negb (Ascii.eqb (deref p) "/") then None
          else
            let end_ := advance_while interp_char p in
            let len := ptr_diff end_ p in
            if (len =? 0) || (len >=? PATH_MAX) then None
            else
              let interp := take_bytes (Z.to_nat len) p in
              let end_ := advance_while is_blank end_ in
              if arg_char (deref end_) then
                let arg_end := advance_while arg_char end_ in
                let arg_len := ptr_diff arg_end end_ in
                if (0 <? arg_len) && (arg_len <? PATH_MAX)
                then Some (ShebangInfo interp (take_bytes (Z.to_nat arg_len) end_) true)
                else Some (ShebangInfo interp EmptyString false)
              else Some (ShebangInfo interp EmptyString false)
  end.

Definition should_wrap_elf (w : world) (filename : option string) : bool :=
  match filename with
  | None => false
  | Some f =>
      if negb (Ascii.eqb (deref f) "/") then false
      else if is_linker_path filename then false
      else if starts_with filename (Some "/system/") || starts_with filename (Some "/apex/")
      then false
      else if negb (path_in_prefix w filename) then false
      else is_elf_binary w filename
  end.

(** [while (argv[argc]) argc++;] *)
Fixpoint count_until_null (slots : list (option string)) : nat :=
  match slots with
  | Some _ :: r => S (count_until_null r)
  | _ => O
  end.

Definition argc_of (argv : argv_t) : nat :=
  match argv with
  | None => O
  | Some slots => count_until_null slots
  end.

(** [argv[j]] *)
Definition argv_at (argv : argv_t) (j : nat) : option string :=
  match argv with
  | None => None
  | Some slots => default None (slots !! j)
  end.

(** [for (j = first; ...; j++) new_argv[i++] = argv[j];] with [n]
    iterations left. *)
Fixpoint copy_args (argv : argv_t) (new_argv : list (option string))
    (i j n : nat) : list (option string) :=
  match n with
  | O => new_argv
  | S n' => copy_args argv (<[i := argv_at argv j]> new_argv) (S i) (S j) n'
  end.

(** [envp ? envp : environ] *)
Definition envp_or_environ (w : world) (envp : envp_t) : envp_t :=
  match envp with
  | Some e => Some e
  | None => environ w
  end.

(** A call through the resolved [real_execve_fn]. *)
Definition call_real (real : exec_call -> option Z)
    (path : option string) (argv : argv_t) (envp : envp_t) : outcome :=
  let c := ExecCall path argv envp in
  Outcome [c] (real c).

(** [errno = e; return -1;] *)
Definition fail_with (e : Z) : outcome := Outcome [] (Some e).

Definition execve_via_linker (w : world) (real : exec_call -> option Z)
    (filename : option string) (argv : argv_t) (envp : envp_t) : outcome :=
  let linker := select_system_linker w in
  let argc := argc_of argv in
  if negb (calloc_ok w (argc + 2)%nat) then fail_with ENOMEM
  else
    let new_argv := replicate (argc + 2)%nat None in
    let new_argv := <[0%nat := Some linker]> new_argv in
    let new_argv := <[1%nat := filename]> new_argv in
    let new_argv := copy_args argv new_argv 2 1 (argc - 1) in
    call_real real (Some linker) (Some new_argv) (envp_or_environ w envp).

Definition exec_script_via_linker (w : world) (real : exec_call -> option Z)
    (filename : option string) (sb : shebang_info_t)
    (argv : argv_t) (envp : envp_t) : outcome :=
  if is_empty (interpreter sb) then fail_with ENOEXEC
  else
    let interp := remapped_or w (Some (interpreter sb)) in
    if negb (path_in_prefix w interp)
    then call_real real filename argv (envp_or_environ w envp)
    else
      let linker := select_system_linker w in
      let argc := argc_of argv in
      let fixed := if has_arg sb then 4%nat else 3%nat in
      if negb (calloc_ok w (argc + fixed)%nat) then fail_with ENOMEM
      else
        let new_argv := replicate (argc + fixed)%nat None in
        let new_argv := <[0%nat := Some linker]> new_argv in
        let new_argv := <[1%nat := interp]> new_argv in
        let '(new_argv, i) :=
          if has_arg sb then (<[2%nat := Some (arg sb)]> new_argv, 3%nat)
          else (new_argv, 2%nat) in
        let new_argv := <[i := filename]> new_argv in
        let new_argv := copy_args argv new_argv (S i) 1 (argc - 1) in
        call_real real (Some linker) (Some new_argv) (envp_or_environ w envp).

Definition execve (w : world) (filename : option string)
    (argv : argv_t) (envp : envp_t) : outcome :=
  match dlsym_execve w with
  | None => fail_with ENOSYS
  | Some real =>
      let effective_filename := remapped_or w filename in
      if should_wrap_elf w effective_filename
      then execve_via_linker w real effective_filename argv envp
      else
        match (if path_in_prefix w effective_filename
               then parse_shebang w effective_filename else None) with
        | Some sb => exec_script_via_linker w real effective_filename sb argv envp
        | None => call_real real effective_filename argv (envp_or_environ w envp)
        end
  end.

(** [strchr(delim, c) != NULL] *)
Definition is_delim (delim : string) (c : ascii) : bool :=
  match strchr delim c with
  | Some _ => true
  | None => false
  end.

(** [strtok_r(s, delim, &saveptr)] on the rest [s] of the string being
    split: [None] when no token is left, else the token and the new
    [saveptr]. *)
Definition strtok_r (s delim : string) : option (string * string) :=
  (* s += strspn(s, delim) *)
  let s := advance_while (is_delim delim) s in
  if is_empty s then None
  else
    (* end = s + strcspn(s, delim) *)
    let end_ := advance_while (fun c => negb (is_delim delim c)) s in
    let token := take_bytes (Z.to_nat (ptr_diff end_ s)) s in
    if is_empty end_ then Some (token, end_)
    else Some (token, ptr_add end_ 1).

(** [if (errno != ENOENT && errno != ENOTDIR) saved_errno = errno;] *)
Definition remember_errno (errno saved_errno : Z) : Z :=
  if negb (errno =? ENOENT) && negb (errno =? ENOTDIR) then errno else saved_errno.

(** The [for] loop of [search_path_and_exec] over the tokens of
    [path_copy]; [fuel] bounds the number of iterations and [None] means
    that it ran out. *)
Fixpoint search_loop (fuel : nat) (w : world) (file : string)
    (argv : argv_t) (envp : envp_t) (saveptr : string) (saved_errno : Z)
  : option outcome :=
  match fuel with
  | O => None
  | S fuel' =>
      match strtok_r saveptr ":" with
      | None => Some (Outcome [] (Some saved_errno))
      | Some (token, saveptr') =>
          let dir := if is_empty token then "." else token in
          let candidate := dir +:+ "/" +:+ file in
          let n := strlen candidate in
          if (n <=? 0) || (n >=? PATH_MAX)
          then search_loop fuel' w file argv envp saveptr' saved_errno
          else
            let o := execve w (Some candidate) argv envp in
            match result o with
            | None => Some o
            | Some errno =>
                match search_loop fuel' w file argv envp saveptr'
                        (remember_errno errno saved_errno) with
                | None => None
                | Some r => Some (Outcome (calls o ++ calls r) (result r))
                end
            end
      end
  end.

Definition search_path_and_exec (w : world) (file : option string)
    (argv : argv_t) (envp : envp_t) : option outcome :=
  match file with
  | None => Some (fail_with ENOENT)
  | Some f =>
      if is_empty f then Some (fail_with ENOENT)
      else
        match strchr f "/" with
        | Some _ => Some (execve w file argv envp)
        | None =>
            let path_env :=
              match getenv w "PATH" with
              | None => "/system/bin"
              | Some p => if is_empty p then "/system/bin" else p
              end in
            if negb (strdup_ok w path_env) then Some (fail_with ENOMEM)
            else search_loop (S (String.length path_env)) w f argv envp path_env ENOENT
        end
  end.

Definition execv (w : world) (path : option string) (argv : argv_t) : outcome :=
  execve w path argv (environ w).

Definition execvp (w : world) (file : option string) (argv : argv_t)
  : option outcome :=
  search_path_and_exec w file argv (environ w).

Definition execvpe (w : world) (file : option string) (argv : argv_t)
    (envp : envp_t) : option outcome :=
  search_path_and_exec w file argv (envp_or_environ w envp).

(** ** Inputs used by the examples *)

(** [n] copies of [c]. *)
Fixpoint fill (c : ascii) (n : nat) : string :=
  match n with
  | O => EmptyString
  | S n' => String c (fill c n')
  end.

Definition ELF_MAGIC : string := String (ascii_of_nat 127) "ELF".
Definition LF : string := String (ascii_of_nat 10) EmptyString.

(** Scripts whose interpreter token, or whose argument, is longer than
    [PATH_MAX]. *)
Definition long_interp_script : string := "#!/" +:+ fill "i" 4100 +:+ LF.
Definition long_arg_script : string := "#!/usr/bin/sh " +:+ fill "x" 4100 +:+ LF.

(** A small system: a managed root [/usr] holding a native executable and
    two scripts, an underlying [execve] that fails with [EACCES] on
    [/a/tool] and with [ENOENT] elsewhere. *)
Definition demo_fs (p : string) : option node :=
  if String.eqb p "/usr/bin/ls" then Some (RegularFile (ELF_MAGIC +:+ "..."))
  else if String.eqb p "/usr/bin/hello.sh"
  then Some (RegularFile ("#!/system/bin/sh" +:+ LF +:+ "echo hello" +:+ LF))
  else if String.eqb p "/usr/bin/hello.py"
  then Some (RegularFile ("#!/usr/bin/python3 -u" +:+ LF +:+ "print(1)" +:+ LF))
  else if String.eqb p "/usr/bin/long-interp"
  then Some (RegularFile long_interp_script)
  else if String.eqb p "/usr/bin/long-arg"
  then Some (RegularFile long_arg_script)
  else None.

Definition demo_real (c : exec_call) : option Z :=
  if bool_decide (call_path c = Some "/a/tool") then Some EACCES else Some ENOENT.

Definition demo_world (env : list string) : world :=
  World (Some env) demo_fs (fun _ => true) (Some demo_real)
        (fun _ => true) (fun _ => true).

(** A legacy path whose rewrite needs more than [PATH_MAX] bytes. *)
Definition long_legacy_path : string := legacy_data +:+ "/" +:+ fill "a" 4096.

(** ** The shebang grammar, as the specification words it *)

(** The longest run of characters accepted by [keep] at the start. *)
Fixpoint take_while (keep : ascii -> bool) (s : string) : string :=
  match s with
  | EmptyString => EmptyString
  | String c r => if keep c then String c (take_while keep r) else EmptyString
  end.

(** The interpreter token of a text that starts with [#!]: skip the
    blanks behind [#!], then read up to the first space, tab, newline,
    return or [NUL]. *)
Definition shebang_interp_token (text : string) : string :=
  take_while interp_char (advance_while is_blank (ptr_add text 2)).

(** The optional argument: skip the blanks behind the interpreter, then
    the whole remainder of the line. *)
Definition shebang_arg_token (text : string) : string :=
  take_while arg_char
    (advance_while is_blank
       (advance_while interp_char (advance_while is_blank (ptr_add text 2)))).

(** ** The argument vector of a script, as the specification words it *)

(** [linker_path, interpreter, arg?, script]: the words put in front of
    the caller's arguments. *)
Definition script_prefix (w : world) (interp filename : option string)
    (sb : shebang_info_t) : list (option string) :=
  Some (select_system_linker w) :: interp
    :: (if has_arg sb then [Some (arg sb)] else []) ++ [filename].

(** A block of pointer slots is a well-formed argument vector sized to
    its content when its last slot, and no other, is [NULL]. *)
Definition exactly_terminated (block : list (option string)) : bool :=
  Nat.eqb (S (count_until_null block)) (length block).

(** ** The directory search, as the specification words it *)

(** A search list split on [:], empty segments kept. *)
Fixpoint split_colon (s : string) : list string :=
  match s with
  | EmptyString => [EmptyString]
  | String c r =>
      if Ascii.eqb c ":" then EmptyString :: split_colon r
      else match split_colon r with
           | seg :: segs => String c seg :: segs
           | [] => [String c EmptyString]
           end
  end.

(** The segments that are not empty. *)
Definition nonempty_segments (path : string) : list string :=
  filter (fun seg => is_empty seg = false) (split_colon path).

(** A character of a segment. *)
Definition not_colon (c : ascii) : bool := negb (is_delim ":" c).

(** [directory + "/" + name], an empty segment standing for the current
    directory. *)
Definition candidate_of (file segment : string) : string :=
  (if is_empty segment then "." else segment) +:+ "/" +:+ file.

Definition search_candidates (path file : string) : list string :=
  map (candidate_of file) (split_colon path).

(** The candidate fits the [PATH_MAX] bytes of the buffer it is built in. *)
Definition fits_path_max (candidate : string) : bool :=
  strlen candidate <? PATH_MAX.

(** The full pipeline run on each candidate in turn: the first attempt
    that replaces the process image ends the search, a failed attempt is
    remembered by [remember_errno] and the search goes on; an exhausted
    list fails with the remembered error. *)
Fixpoint try_candidates (w : world) (candidates : list string)
    (argv : argv_t) (envp : envp_t) (saved_errno : Z) : outcome :=
  match candidates with
  | [] => Outcome [] (Some saved_errno)
  | c :: rest =>
      let o := execve w (Some c) argv envp in
      match result o with
      | None => o
      | Some e =>
          let r := try_candidates w rest argv envp (remember_errno e saved_errno) in
          Outcome (calls o ++ calls r) (result r)
      end
  end.

(** A search that stops at the first attempt whose failure is neither
    [ENOENT] nor [ENOTDIR], and is [try_candidates] otherwise. *)
Fixpoint try_candidates_stopping (w : world) (candidates : list string)
    (argv : argv_t) (envp : envp_t) (saved_errno : Z) : outcome :=
  match candidates with
  | [] => Outcome [] (Some saved_errno)
  | c :: rest =>
      let o := execve w (Some c) argv envp in
      match result o with
      | None => o
      | Some e =>
          if negb (e =? ENOENT) && negb (e =? ENOTDIR) then o
          else
            let r := try_candidates_stopping w rest argv envp saved_errno in
            Outcome (calls o ++ calls r) (result r)
      end
  end.

(** The last of the given errors that is neither [ENOENT] nor [ENOTDIR],
    and [ENOENT] when there is none. *)
Definition last_remembered (errors : list Z) : Z :=
  default ENOENT
    (last (filter (fun e => e <> ENOENT /\ e <> ENOTDIR) errors)).

(** A name longer than any candidate buffer. *)
Definition long_name : string := fill "n" 4096.

(** The search list in use: the value of [PATH], and [/system/bin] when
    [PATH] is unset or empty. *)
Definition search_list (w : world) : string :=
  match getenv w "PATH" with
  | None => "/system/bin"
  | Some p => if is_empty p then "/system/bin" else p
  end.

(** The candidates submitted for a search list: one for each segment
    that is not empty, unless it does not fit. *)
Definition submitted_candidates (path file : string) : list string :=
  filter (fun c => fits_path_max c = true)
         (map (candidate_of file) (nonempty_segments path)).

(** ** Further notions used to state what the functions guarantee *)

(** The marker of the alternate layout that the classifier looks for. *)
Definition layout_marker : string := "/files/prefix/".

(** Every byte of [s] is accepted by [ok]. *)
Fixpoint all_bytes (ok : ascii -> bool) (s : string) : bool :=
  match s with
  | EmptyString => true
  | String c r => ok c && all_bytes ok r
  end.

(** An environment variable is unset or holds the empty string. *)
Definition unset_or_empty (w : world) (name : string) : Prop :=
  getenv w name = None \/ getenv w name = Some EmptyString.

(** A world in which [dlsym] finds no underlying [execve]. *)
Definition unresolved_world (env : list string) : world :=
  World (Some env) demo_fs (fun _ => true) None (fun _ => true) (fun _ => true).

(** An underlying [execve] that replaces the process image for
    [/b/tool], fails with [EACCES] for [/a/tool] and with [ENOENT]
    elsewhere. *)
Definition second_succeeds (c : exec_call) : option Z :=
  if bool_decide (call_path c = Some "/b/tool") then None else demo_real c.

Definition second_succeeds_world (env : list string) : world :=
  World (Some env) demo_fs (fun _ => true) (Some second_succeeds)
        (fun _ => true) (fun _ => true).

(** ** Facts about the string helpers *)

Section StringFacts.

Lemma append_nil_l (b : string) : EmptyString +:+ b = b.
Proof. reflexivity. Qed.

Lemma append_String (c : ascii) (a b : string) :
  String c a +:+ b = String c (a +:+ b).
Proof. reflexivity. Qed.

Lemma strlen_app (a b : string) : strlen (a +:+ b) = strlen a + strlen b.
Proof.
  unfold strlen. induction a as [|c a IH].
  - rewrite append_nil_l. simpl String.length. lia.
  - rewrite append_String. simpl String.length. lia.
Qed.

Lemma strlen_nonneg (s : string) : 0 <= strlen s.
Proof. unfold strlen. lia. Qed.

Lemma strlen_String (c : ascii) (s : string) : strlen (String c s) = 1 + strlen s.
Proof. unfold strlen. simpl String.length. lia. Qed.

Lemma is_empty_false_strlen (s : string) : is_empty s = false -> 0 < strlen s.
Proof. destruct s; [discriminate|]. rewrite strlen_String. pose proof (strlen_nonneg s). lia. Qed.

Lemma prefix_app (a b : string) : String.prefix a (a +:+ b) = true.
Proof.
  induction a as [|c a IH].
  - destruct b; reflexivity.
  - rewrite append_String. simpl.
    destruct (ascii_dec c c); [exact IH|congruence].
Qed.

Lemma ptr_add_app (a b : string) : ptr_add (a +:+ b) (String.length a) = b.
Proof.
  induction a as [|c a IH].
  - rewrite append_nil_l. reflexivity.
  - rewrite append_String. simpl. exact IH.
Qed.

Lemma take_bytes_all (k : nat) (s : string) :
  (String.length s <= k)%nat -> take_bytes k s = s.
Proof.
  revert k. induction s as [|c s IH]; intros k Hk.
  - destruct k; reflexivity.
  - destruct k; simpl in *; [lia|]. rewrite IH; [reflexivity|lia].
Qed.

Lemma take_bytes_length (k : nat) (s : string) :
  (String.length (take_bytes k s) <= k)%nat.
Proof.
  revert s. induction k as [|k IH]; intros s; destruct s; simpl; try lia.
  specialize (IH s). lia.
Qed.

Lemma prefix_deref (a s : string) (c : ascii) :
  String.prefix (String c a) s = true -> deref s = c.
Proof.
  destruct s as [|d s]; simpl; [discriminate|].
  destruct (ascii_dec c d); [congruence|discriminate].
Qed.

End StringFacts.

(** ** The legacy path remapper *)

Section Remap.

Variable w : world.

Lemma legacy_user_not_data (sfx : string) :
  String.prefix legacy_data (legacy_user +:+ sfx) = false.
Proof. reflexivity. Qed.

Lemma map_legacy_match (root lp sfx : string) :
  getenv w "PREFIX" = Some root ->
  is_empty root = false ->
  lp = legacy_data \/ lp = legacy_user ->
  map_legacy_termux_usr_path w (Some (lp +:+ sfx)) PATH_MAX =
    (bool_decide (strlen root + strlen sfx < PATH_MAX),
     Some (take_bytes 4095 (root +:+ sfx))).
Proof.
  intros Hroot Hne Hlp. unfold map_legacy_termux_usr_path.
  change (PATH_MAX =? 0) with false. cbv iota. rewrite Hroot, Hne.
  assert (Hsfx :
    (if starts_with (Some (lp +:+ sfx)) (Some legacy_data)
     then Some (ptr_add (lp +:+ sfx) (String.length legacy_data))
     else if starts_with (Some (lp +:+ sfx)) (Some legacy_user)
     then Some (ptr_add (lp +:+ sfx) (String.length legacy_user))
     else None) = Some sfx).
  { destruct Hlp as [-> | ->]; unfold starts_with.
    - rewrite prefix_app, ptr_add_app. reflexivity.
    - rewrite legacy_user_not_data, prefix_app, ptr_add_app. reflexivity. }
  rewrite Hsfx. unfold snprintf_ss. rewrite strlen_app.
  change (Z.to_nat (PATH_MAX - 1)) with 4095%nat.
  f_equal.
  pose proof (is_empty_false_strlen _ Hne). pose proof (strlen_nonneg sfx).
  destruct (Z.ltb_spec 0 (strlen root + strlen sfx)); [|lia].
  simpl andb. case_bool_decide; destruct (Z.ltb_spec (strlen root + strlen sfx) PATH_MAX); trivial; lia.
Qed.

Lemma map_legacy_no_root (path : option string) :
  getenv w "PREFIX" = None \/ getenv w "PREFIX" = Some EmptyString ->
  map_legacy_termux_usr_path w path PATH_MAX = (false, None).
Proof.
  intros [H|H]; unfold map_legacy_termux_usr_path; destruct path; trivial;
    change (PATH_MAX =? 0) with false; cbv iota; rewrite H; reflexivity.
Qed.

Lemma map_legacy_no_match (p : string) :
  String.prefix legacy_data p = false ->
  String.prefix legacy_user p = false ->
  map_legacy_termux_usr_path w (Some p) PATH_MAX = (false, None).
Proof.
  intros H1 H2. unfold map_legacy_termux_usr_path, starts_with.
  change (PATH_MAX =? 0) with false. cbv iota. rewrite H1, H2.
  destruct (getenv w "PREFIX") as [root|]; [|reflexivity].
  destruct (is_empty root); reflexivity.
Qed.

Lemma relative_no_legacy_prefix (p : string) :
  deref p <> "/"%char ->
  String.prefix legacy_data p = false /\ String.prefix legacy_user p = false.
Proof.
  intros Hrel. split.
  - destruct (String.prefix legacy_data p) eqn:E; [|reflexivity].
    apply prefix_deref in E. contradiction.
  - destruct (String.prefix legacy_user p) eqn:E; [|reflexivity].
    apply prefix_deref in E. contradiction.
Qed.

End Remap.

(** ** C5: the remapper *)

(** C5, as stated, fails: with the root set to [/usr], an absolute path
    that begins with the first legacy prefix but whose rewrite would not
    fit in [PATH_MAX] bytes is answered with "no rewrite". *)
Lemma C5_long_rewrite_counterexample :
  getenv (demo_world ["PREFIX=/usr"]) "PREFIX" = Some "/usr"
  /\ deref long_legacy_path = "/"%char
  /\ String.prefix legacy_data long_legacy_path = true
  /\ fst (map_legacy_termux_usr_path (demo_world ["PREFIX=/usr"])
            (Some long_legacy_path) PATH_MAX) = false.
Proof. vm_compute. repeat split. Qed.

(** C5 (amended): with the root set and non-empty, a path made of a legacy
    prefix and a suffix is rewritten to the root followed by that suffix
    whenever the rewrite is shorter than [PATH_MAX]; when it is not, the
    remapper signals "no rewrite".  For every path that is relative or
    begins with neither legacy prefix, and whenever the root is unset or
    empty, it signals "no rewrite" and leaves the output buffer alone. *)
Theorem C5_remap_legacy_prefix (w : world) :
  (forall root lp sfx : string,
      getenv w "PREFIX" = Some root ->
      is_empty root = false ->
      lp = legacy_data \/ lp = legacy_user ->
      strlen root + strlen sfx < PATH_MAX ->
      map_legacy_termux_usr_path w (Some (lp +:+ sfx)) PATH_MAX
      = (true, Some (root +:+ sfx)))
  /\ (forall root lp sfx : string,
      getenv w "PREFIX" = Some root ->
      is_empty root = false ->
      lp = legacy_data \/ lp = legacy_user ->
      PATH_MAX <= strlen root + strlen sfx ->
      fst (map_legacy_termux_usr_path w (Some (lp +:+ sfx)) PATH_MAX) = false)
  /\ (forall p : string,
      deref p <> "/"%char
      \/ (String.prefix legacy_data p = false /\ String.prefix legacy_user p = false)
      \/ getenv w "PREFIX" = None
      \/ getenv w "PREFIX" = Some EmptyString ->
      map_legacy_termux_usr_path w (Some p) PATH_MAX = (false, None)).
Proof.
  split; [|split].
  - intros root lp sfx Hroot Hne Hlp Hfit.
    rewrite (map_legacy_match w root lp sfx Hroot Hne Hlp).
    rewrite bool_decide_eq_true_2 by exact Hfit.
    rewrite take_bytes_all; [reflexivity|].
    pose proof (strlen_app root sfx) as Hlen. unfold strlen, PATH_MAX in *. lia.
  - intros root lp sfx Hroot Hne Hlp Hlong.
    rewrite (map_legacy_match w root lp sfx Hroot Hne Hlp). simpl fst.
    apply bool_decide_eq_false_2. lia.
  - intros p [Hrel | [[H1 H2] | Hroot]].
    + destruct (relative_no_legacy_prefix p Hrel) as [H1 H2].
      exact (map_legacy_no_match w p H1 H2).
    + exact (map_legacy_no_match w p H1 H2).
    + exact (map_legacy_no_root w (Some p) Hroot).
Qed.

(** With the root at [/usr]: a rewrite that fits, one that does not, and
    a relative path. *)
Lemma C5_remap_legacy_prefix_witness :
  map_legacy_termux_usr_path (demo_world ["PREFIX=/usr"])
    (Some (legacy_user +:+ "/bin/ls")) PATH_MAX = (true, Some ("/usr" +:+ "/bin/ls"))
  /\ fst (map_legacy_termux_usr_path (demo_world ["PREFIX=/usr"])
            (Some (legacy_data +:+ ("/" +:+ fill "a" 4096))) PATH_MAX) = false
  /\ map_legacy_termux_usr_path (demo_world ["PREFIX=/usr"])
       (Some "bin/ls") PATH_MAX = (false, None).
Proof.
  destruct (C5_remap_legacy_prefix (demo_world ["PREFIX=/usr"])) as [Hfit [Hlong Hnone]].
  split; [|split].
  - apply (Hfit "/usr" legacy_user "/bin/ls");
      [reflexivity | reflexivity | right; reflexivity | reflexivity].
  - apply (Hlong "/usr" legacy_data ("/" +:+ fill "a" 4096));
      [reflexivity | reflexivity | left; reflexivity | vm_compute; discriminate].
  - apply (Hnone "bin/ls"). left. vm_compute. discriminate.
Defined.

(** ** The argument vectors built for the system linker *)

Section ArgvBuilder.

Variable w : world.
Variable real : exec_call -> option Z.

Lemma count_until_null_args (args : list string) (tail : list (option string)) :
  count_until_null (map Some args ++ None :: tail) = length args.
Proof. induction args as [|a args IH]; simpl; [reflexivity|]. now rewrite IH. Qed.

Lemma argv_at_middle (front tail : list (option string)) (x : option string) :
  argv_at (Some (front ++ x :: tail)) (length front) = x.
Proof. unfold argv_at. now rewrite list_lookup_middle. Qed.

(** The copy loop fills the zeroed slots behind [pre] with the arguments
    found behind [front], and touches nothing else. *)
Lemma copy_args_fills (rest : list string) :
  forall (front tail pre : list (option string)) (m : nat),
    copy_args (Some (front ++ map Some rest ++ tail))
              (pre ++ replicate (length rest + m) None)
              (length pre) (length front) (length rest)
    = pre ++ map Some rest ++ replicate m None.
Proof.
  induction rest as [|x rest IH]; intros front tail pre m.
  - reflexivity.
  - cbn [length copy_args map Nat.add app].
    rewrite argv_at_middle.
    replace (length pre) with (length pre + 0)%nat at 1 by lia.
    rewrite insert_app_r. cbn [replicate].
    change (<[0%nat:=Some x]> (None :: replicate (length rest + m) None))
      with (Some x :: replicate (length rest + m) (@None string)).
    specialize (IH (front ++ [Some x]) tail (pre ++ [Some x]) m).
    rewrite !length_app in IH. cbn [length] in IH.
    rewrite !Nat.add_1_r in IH. rewrite <- !app_assoc in IH.
    exact IH.
Qed.

(** With at least [argv[0]] present, the vector for a native executable
    is the linker, the target, the caller's arguments from index 1 on
    and the terminator, in a block of exactly that size. *)
Lemma execve_via_linker_args (target : option string) (a0 : string)
    (rest : list string) (junk : list (option string)) (envp : envp_t) :
  calloc_ok w (length (a0 :: rest) + 2) = true ->
  execve_via_linker w real target
    (Some (map Some (a0 :: rest) ++ None :: junk)) envp
  = call_real real (Some (select_system_linker w))
      (Some (Some (select_system_linker w) :: target :: map Some rest ++ [None]))
      (envp_or_environ w envp).
Proof.
  intros Halloc. unfold execve_via_linker, argc_of.
  rewrite count_until_null_args, Halloc. cbn [negb].
  f_equal. f_equal.
  replace (length (a0 :: rest) + 2)%nat with (2 + (length rest + 1))%nat
    by (cbn [length]; lia).
  replace (length (a0 :: rest) - 1)%nat with (length rest)
    by (cbn [length]; lia).
  pose proof (copy_args_fills rest [Some a0] (None :: junk)
                [Some (select_system_linker w); target] 1) as H.
  exact H.
Qed.

(** With no argument at all ([argv] is [NULL] or starts with the
    terminator) the block has two slots and both are taken. *)
Lemma execve_via_linker_no_args (target : option string) (argv : argv_t)
    (envp : envp_t) :
  argc_of argv = O ->
  calloc_ok w 2 = true ->
  execve_via_linker w real target argv envp
  = call_real real (Some (select_system_linker w))
      (Some [Some (select_system_linker w); target])
      (envp_or_environ w envp).
Proof.
  intros Hargc Halloc. unfold execve_via_linker.
  rewrite Hargc. cbn [Nat.add]. rewrite Halloc. reflexivity.
Qed.

Lemma exec_script_via_linker_args (filename : option string)
    (sb : shebang_info_t) (a0 : string) (rest : list string)
    (junk : list (option string)) (envp : envp_t) :
  is_empty (interpreter sb) = false ->
  path_in_prefix w (remapped_or w (Some (interpreter sb))) = true ->
  calloc_ok w (length (a0 :: rest) + (if has_arg sb then 4 else 3)) = true ->
  exec_script_via_linker w real filename sb
    (Some (map Some (a0 :: rest) ++ None :: junk)) envp
  = call_real real (Some (select_system_linker w))
      (Some (script_prefix w (remapped_or w (Some (interpreter sb))) filename sb
             ++ map Some rest ++ [None]))
      (envp_or_environ w envp).
Proof.
  intros Hne Hin Halloc. unfold exec_script_via_linker, argc_of, script_prefix.
  rewrite Hne, Hin, count_until_null_args. cbn [negb].
  rewrite Halloc. cbn [negb].
  replace (length (a0 :: rest) - 1)%nat with (length rest) by (cbn [length]; lia).
  set (interp := remapped_or w (Some (interpreter sb))).
  set (linker := select_system_linker w).
  destruct (has_arg sb).
  - replace (length (a0 :: rest) + 4)%nat with (4 + (length rest + 1))%nat
      by (cbn [length]; lia).
    f_equal. f_equal.
    exact (copy_args_fills rest [Some a0] (None :: junk)
             [Some linker; interp; Some (arg sb); filename] 1).
  - replace (length (a0 :: rest) + 3)%nat with (3 + (length rest + 1))%nat
      by (cbn [length]; lia).
    f_equal. f_equal.
    exact (copy_args_fills rest [Some a0] (None :: junk)
             [Some linker; interp; filename] 1).
Qed.

Lemma exec_script_via_linker_no_args (filename : option string)
    (sb : shebang_info_t) (argv : argv_t) (envp : envp_t) :
  is_empty (interpreter sb) = false ->
  path_in_prefix w (remapped_or w (Some (interpreter sb))) = true ->
  argc_of argv = O ->
  calloc_ok w (if has_arg sb then 4 else 3) = true ->
  exec_script_via_linker w real filename sb argv envp
  = call_real real (Some (select_system_linker w))
      (Some (script_prefix w (remapped_or w (Some (interpreter sb))) filename sb))
      (envp_or_environ w envp).
Proof.
  intros Hne Hin Hargc Halloc. unfold exec_script_via_linker, script_prefix.
  rewrite Hne, Hin, Hargc. cbn [negb Nat.add].
  destruct (has_arg sb); rewrite Halloc; reflexivity.
Qed.

Lemma exec_script_via_linker_passthrough (filename : option string)
    (sb : shebang_info_t) (argv : argv_t) (envp : envp_t) :
  is_empty (interpreter sb) = false ->
  path_in_prefix w (remapped_or w (Some (interpreter sb))) = false ->
  exec_script_via_linker w real filename sb argv envp
  = call_real real filename argv (envp_or_environ w envp).
Proof.
  intros Hne Hout. unfold exec_script_via_linker. now rewrite Hne, Hout.
Qed.

End ArgvBuilder.

(** ** The shebang parser *)

Section Scanning.

Variable keep : ascii -> bool.

Lemma advance_while_strlen (p : string) :
  strlen (advance_while keep p) <= strlen p.
Proof.
  induction p as [|c r IH]; simpl; [lia|].
  destruct (keep c); [|lia]. rewrite strlen_String. lia.
Qed.

(** [memcpy(out, p, end - p)] copies the run the loop went over. *)
Lemma scanned_bytes (p : string) :
  take_bytes (Z.to_nat (ptr_diff (advance_while keep p) p)) p = take_while keep p.
Proof.
  unfold ptr_diff. induction p as [|c r IH]; [reflexivity|].
  simpl advance_while. simpl take_while. destruct (keep c).
  - pose proof (advance_while_strlen r) as Hle.
    rewrite strlen_String.
    replace (Z.to_nat (1 + strlen r - strlen (advance_while keep r)))
      with (S (Z.to_nat (strlen r - strlen (advance_while keep r)))) by lia.
    simpl take_bytes. now rewrite IH.
  - rewrite Z.sub_diag. reflexivity.
Qed.

Lemma scanned_strlen (p : string) :
  ptr_diff (advance_while keep p) p = strlen (take_while keep p).
Proof.
  unfold ptr_diff. induction p as [|c r IH]; [reflexivity|].
  simpl advance_while. simpl take_while. destruct (keep c).
  - rewrite !strlen_String. lia.
  - rewrite Z.sub_diag. reflexivity.
Qed.

Lemma take_while_strlen (p : string) : strlen (take_while keep p) <= strlen p.
Proof.
  rewrite <- scanned_strlen. unfold ptr_diff.
  pose proof (strlen_nonneg (advance_while keep p)). lia.
Qed.

Hypothesis stop_at_nul : keep NUL = false.

(** The terminator written behind the data stops every loop just as the
    end of the data does. *)
Lemma advance_while_terminated (s : string) :
  advance_while keep (s +:+ String NUL EmptyString)
  = advance_while keep s +:+ String NUL EmptyString.
Proof.
  induction s as [|c r IH].
  - rewrite append_nil_l. simpl. now rewrite stop_at_nul.
  - rewrite append_String. simpl. destruct (keep c); [exact IH|].
    now rewrite append_String.
Qed.

Lemma take_while_terminated (s : string) :
  take_while keep (s +:+ String NUL EmptyString) = take_while keep s.
Proof.
  induction s as [|c r IH].
  - rewrite append_nil_l. simpl. now rewrite stop_at_nul.
  - rewrite append_String. simpl. destruct (keep c); [now rewrite IH|reflexivity].
Qed.

End Scanning.

Lemma ptr_add_terminated (s t : string) (k : nat) :
  (k <= String.length s)%nat -> ptr_add (s +:+ t) k = ptr_add s k +:+ t.
Proof.
  revert s. induction k as [|k IH]; intros s Hk; [reflexivity|].
  destruct s as [|c r]; simpl in Hk; [lia|].
  rewrite append_String. simpl. apply IH. lia.
Qed.

Lemma deref_terminated (s : string) : deref (s +:+ String NUL EmptyString) = deref s.
Proof. destruct s; reflexivity. Qed.

Lemma strlen_ptr_add (s : string) (k : nat) : strlen (ptr_add s k) <= strlen s.
Proof.
  revert s. induction k as [|k IH]; intros s; [simpl; lia|].
  destruct s as [|c r]; simpl; [lia|]. rewrite strlen_String. specialize (IH r). lia.
Qed.

Lemma strlen_take_bytes (k : nat) (s : string) : strlen (take_bytes k s) <= Z.of_nat k.
Proof. unfold strlen. pose proof (take_bytes_length k s). lia. Qed.

Section Parser.

Variable w : world.

(** What a successful parse has seen and what it returns, in terms of
    the bytes that the single [read] delivered. *)
Lemma parse_shebang_inv (p : string) (sb : shebang_info_t) :
  parse_shebang w (Some p) = Some sb ->
  exists content : string,
    fs_open w p = Some (RegularFile content)
    /\ 2 < strlen (take_bytes 511 content)
    /\ byte_at (take_bytes 511 content) 0 = "#"%char
    /\ byte_at (take_bytes 511 content) 1 = "!"%char
    /\ deref (interpreter sb) = "/"%char
    /\ interpreter sb = shebang_interp_token (take_bytes 511 content)
    /\ arg sb = shebang_arg_token (take_bytes 511 content)
    /\ has_arg sb = negb (is_empty (arg sb)).
Proof.
  unfold parse_shebang, open_read.
  destruct (fs_open w p) as [[content|]|]; try discriminate.
  set (data := take_bytes 511 content).
  destruct (Z.leb_spec (strlen data) 2) as [|Hn]; [discriminate|].
  assert (Hlen : (2 < String.length data)%nat) by (unfold strlen in Hn; lia).
  assert (Hdata : strlen data <= 511) by apply strlen_take_bytes.
  unfold byte_at at 1 2.
  rewrite <- !append_correct1 by lia.
  fold (byte_at data 0). fold (byte_at data 1).
  destruct (Ascii.eqb_spec (byte_at data 0) "#") as [H0|]; [|discriminate].
  destruct (Ascii.eqb_spec (byte_at data 1) "!") as [H1|]; [|discriminate].
  cbn [andb negb].
  rewrite ptr_add_terminated by lia.
  rewrite (advance_while_terminated is_blank) by reflexivity.
  set (P0 := advance_while is_blank (ptr_add data 2)).
  assert (HP0 : strlen P0 <= strlen data).
  { pose proof (advance_while_strlen is_blank (ptr_add data 2)).
    pose proof (strlen_ptr_add data 2). subst P0. lia. }
  rewrite deref_terminated.
  destruct (Ascii.eqb_spec (deref P0) "/") as [Hslash|]; [|discriminate].
  cbn [negb].
  rewrite scanned_bytes, scanned_strlen.
  rewrite (take_while_terminated interp_char) by reflexivity.
  rewrite (advance_while_terminated interp_char) by reflexivity.
  rewrite (advance_while_terminated is_blank) by reflexivity.
  set (E0 := advance_while is_blank (advance_while interp_char P0)).
  assert (HE0 : strlen E0 <= strlen data).
  { pose proof (advance_while_strlen is_blank (advance_while interp_char P0)).
    pose proof (advance_while_strlen interp_char P0). subst E0. lia. }
  pose proof (take_while_strlen interp_char P0) as Htok.
  destruct (Z.eqb_spec (strlen (take_while interp_char P0)) 0); [discriminate|].
  destruct (Z.geb_spec (strlen (take_while interp_char P0)) PATH_MAX);
    [unfold PATH_MAX in *; lia|].
  cbn [orb].
  rewrite deref_terminated.
  rewrite scanned_bytes, scanned_strlen.
  rewrite (take_while_terminated arg_char) by reflexivity.
  pose proof (take_while_strlen arg_char E0) as Harg.
  assert (Hinterp : deref (take_while interp_char P0) = "/"%char).
  { destruct P0 as [|c r]; [discriminate|]. simpl in Hslash. subst c. reflexivity. }
  assert (Hsame : forall a b, ShebangInfo (take_while interp_char P0) a b = sb ->
            a = take_while arg_char E0 -> b = negb (is_empty a) ->
            exists content0 : string,
              Some (RegularFile content) = Some (RegularFile content0)
              /\ 2 < strlen (take_bytes 511 content0)
              /\ byte_at (take_bytes 511 content0) 0 = "#"%char
              /\ byte_at (take_bytes 511 content0) 1 = "!"%char
              /\ deref (interpreter sb) = "/"%char
              /\ interpreter sb = shebang_interp_token (take_bytes 511 content0)
              /\ arg sb = shebang_arg_token (take_bytes 511 content0)
              /\ has_arg sb = negb (is_empty (arg sb))).
  { intros a b <- Ha Hb. exists content. cbn [interpreter arg has_arg].
    repeat split; try assumption. }
  destruct (arg_char (deref E0)) eqn:Hac.
  - assert (Hne : is_empty (take_while arg_char E0) = false).
    { destruct E0 as [|c r]; [discriminate|]. simpl in Hac |- *. now rewrite Hac. }
    pose proof (is_empty_false_strlen _ Hne) as Hpos.
    destruct (Z.ltb_spec 0 (strlen (take_while arg_char E0))); [|lia].
    destruct (Z.ltb_spec (strlen (take_while arg_char E0)) PATH_MAX);
      [|unfold PATH_MAX in *; lia].
    cbn [andb]. intros [= Hsb]. apply (Hsame _ _ Hsb); [reflexivity|].
    now rewrite Hne.
  - assert (Hemp : take_while arg_char E0 = EmptyString).
    { destruct E0 as [|c r]; [reflexivity|]. simpl in Hac |- *. now rewrite Hac. }
    intros [= Hsb]. apply (Hsame _ _ Hsb); [now rewrite Hemp|reflexivity].
Qed.

End Parser.

(** ** C6: over-long shebang components *)

(** C6 at the inputs where the code departs from it.  The interpreter
    token of the first script has 4101 bytes and the argument of the
    second 4100, both more than the limit of [PATH_MAX] - 1 bytes that the
    guards of the parser test for; yet the parser accepts both scripts,
    with the first 509 bytes of the token as interpreter and with the
    first 497 bytes of the argument as argument: only 511 bytes of the
    file are read, so what reaches the guards is never over-long. *)
Theorem C6_over_long_components_are_cut_not_refused :
  (shebang_interp_token long_interp_script = "/" +:+ fill "i" 4100
   /\ PATH_MAX <= strlen (shebang_interp_token long_interp_script)
   /\ parse_shebang (demo_world []) (Some "/usr/bin/long-interp")
      = Some (ShebangInfo ("/" +:+ fill "i" 508) EmptyString false)
   /\ strlen ("/" +:+ fill "i" 508) = 509)
  /\ (shebang_arg_token long_arg_script = fill "x" 4100
      /\ PATH_MAX <= strlen (shebang_arg_token long_arg_script)
      /\ parse_shebang (demo_world []) (Some "/usr/bin/long-arg")
         = Some (ShebangInfo "/usr/bin/sh" (fill "x" 497) true)
      /\ strlen (fill "x" 497) = 497).
Proof.
  split; (split; [vm_compute; reflexivity|]);
    (split; [vm_compute; discriminate|]); split; vm_compute; reflexivity.
Qed.

(** What a successful parse returns: the interpreter token and the
    argument found in the bytes that were read, both shorter than
    [PATH_MAX], the argument being flagged exactly when the line has one;
    for a file of at most 511 bytes they are the file's own interpreter
    token and argument. *)
Lemma parse_returns_components_of_read_prefix
    (w : world) (p : string) (sb : shebang_info_t) :
  parse_shebang w (Some p) = Some sb ->
  exists content : string,
    fs_open w p = Some (RegularFile content)
    /\ interpreter sb = shebang_interp_token (take_bytes 511 content)
    /\ arg sb = shebang_arg_token (take_bytes 511 content)
    /\ has_arg sb = negb (is_empty (arg sb))
    /\ 0 < strlen (interpreter sb) < PATH_MAX
    /\ strlen (arg sb) < PATH_MAX
    /\ (strlen content <= 511 ->
        interpreter sb = shebang_interp_token content
        /\ arg sb = shebang_arg_token content).
Proof.
  intros Hparse.
  destruct (parse_shebang_inv w p sb Hparse)
    as (content & Hopen & _ & _ & _ & Hslash & Hinterp & Harg & Hhas).
  exists content. repeat split; try assumption.
  - apply is_empty_false_strlen. destruct (interpreter sb); [discriminate|reflexivity].
  - rewrite Hinterp. unfold shebang_interp_token.
    pose proof (take_while_strlen interp_char
                  (advance_while is_blank (ptr_add (take_bytes 511 content) 2))).
    pose proof (advance_while_strlen is_blank (ptr_add (take_bytes 511 content) 2)).
    pose proof (strlen_ptr_add (take_bytes 511 content) 2).
    pose proof (strlen_take_bytes 511 content).
    unfold PATH_MAX. lia.
  - rewrite Harg. unfold shebang_arg_token.
    set (d := take_bytes 511 content).
    pose proof (take_while_strlen arg_char
                  (advance_while is_blank
                     (advance_while interp_char (advance_while is_blank (ptr_add d 2))))).
    pose proof (advance_while_strlen is_blank
                  (advance_while interp_char (advance_while is_blank (ptr_add d 2)))).
    pose proof (advance_while_strlen interp_char (advance_while is_blank (ptr_add d 2))).
    pose proof (advance_while_strlen is_blank (ptr_add d 2)).
    pose proof (strlen_ptr_add d 2).
    pose proof (strlen_take_bytes 511 content) as Hread. fold d in Hread.
    unfold PATH_MAX. lia.
  - rewrite Hinterp. rewrite take_bytes_all; [reflexivity|].
    match goal with Hfit : strlen content <= 511 |- _ => unfold strlen in Hfit; lia end.
  - rewrite Harg. rewrite take_bytes_all; [reflexivity|].
    match goal with Hfit : strlen content <= 511 |- _ => unfold strlen in Hfit; lia end.
Qed.

(** ** The planner: which way a request is executed *)

Section Planner.

Variable w : world.

Lemma is_elf_binary_magic (p content : string) :
  fs_open w p = Some (RegularFile content) ->
  take_bytes 4 content = ELF_MAGIC ->
  is_elf_binary w (Some p) = true.
Proof.
  intros Hopen Hmagic. unfold is_elf_binary, open_read.
  rewrite Hopen, Hmagic. reflexivity.
Qed.

(** A file cannot be both: what the parser accepts starts with [#]. *)
Lemma script_is_not_elf (p : string) (sb : shebang_info_t) :
  parse_shebang w (Some p) = Some sb -> is_elf_binary w (Some p) = false.
Proof.
  intros Hparse.
  destruct (parse_shebang_inv w p sb Hparse) as (content & Hopen & _ & H0 & _).
  unfold is_elf_binary, open_read. rewrite Hopen.
  destruct content as [|c content]; [discriminate H0|].
  change (byte_at (take_bytes 511 (String c content)) 0) with c in H0. subst c.
  change (byte_at (take_bytes 4 (String "#" content)) 0) with "#"%char.
  change (Ascii.eqb "#" (ascii_of_nat 127)) with false.
  now rewrite andb_false_r.
Qed.

Lemma script_is_not_wrapped_as_elf (p : string) (sb : shebang_info_t) :
  parse_shebang w (Some p) = Some sb -> should_wrap_elf w (Some p) = false.
Proof.
  intros Hparse. unfold should_wrap_elf.
  rewrite (script_is_not_elf p sb Hparse).
  repeat match goal with |- (if ?b then false else _) = false => destruct b; [reflexivity|] end.
  reflexivity.
Qed.

Lemma parsed_interpreter_not_empty (p : string) (sb : shebang_info_t) :
  parse_shebang w (Some p) = Some sb -> is_empty (interpreter sb) = false.
Proof.
  intros Hparse.
  destruct (parse_shebang_inv w p sb Hparse) as (_ & _ & _ & _ & _ & Hslash & _).
  destruct (interpreter sb); [discriminate|reflexivity].
Qed.

End Planner.

(** C1: a request whose path, after the legacy remap, is absolute, is not
    the system linker, is not under [/system/] or [/apex/], is classified
    in-environment and starts with the ELF magic is executed through the
    system linker with that path as target (the argument behind the
    linker's own name).  The test comes first in [execve]: nothing that
    the shebang parser would say about the file is consulted. *)
Theorem C1_native_executable_is_wrapped
    (w : world) (real : exec_call -> option Z) (filename : option string)
    (p content : string) (argv : argv_t) (envp : envp_t) :
  dlsym_execve w = Some real ->
  remapped_or w filename = Some p ->
  deref p = "/"%char ->
  is_linker_path (Some p) = false ->
  starts_with (Some p) (Some "/system/") = false ->
  starts_with (Some p) (Some "/apex/") = false ->
  path_in_prefix w (Some p) = true ->
  fs_open w p = Some (RegularFile content) ->
  take_bytes 4 content = ELF_MAGIC ->
  execve w filename argv envp = execve_via_linker w real (Some p) argv envp
  /\ (calloc_ok w (argc_of argv + 2) = true ->
      exists new_argv : list (option string),
        execve w filename argv envp
        = call_real real (Some (select_system_linker w)) (Some new_argv)
            (envp_or_environ w envp)
        /\ new_argv !! 0%nat = Some (Some (select_system_linker w))
        /\ new_argv !! 1%nat = Some (Some p)).
Proof.
  intros Hdl Hremap Habs Hlinker Hsystem Hapex Hin Hopen Hmagic.
  assert (Hwrap : should_wrap_elf w (Some p) = true).
  { unfold should_wrap_elf.
    rewrite Habs, Hlinker, Hsystem, Hapex, Hin. cbn.
    exact (is_elf_binary_magic w p content Hopen Hmagic). }
  assert (Hexec : execve w filename argv envp
                  = execve_via_linker w real (Some p) argv envp).
  { unfold execve. now rewrite Hdl, Hremap, Hwrap. }
  split; [exact Hexec|].
  intros Halloc. rewrite Hexec. unfold execve_via_linker. rewrite Halloc. cbn [negb].
  eexists. split; [reflexivity|].
  assert (Hkeep : forall (l : list (option string)) (i j n k : nat) (x : option string),
             (k < i)%nat -> l !! k = Some x -> copy_args argv l i j n !! k = Some x).
  { intros l i j n. revert l i j.
    induction n as [|n IH]; intros l i j k x Hk Hl; [exact Hl|].
    cbn [copy_args]. apply IH; [lia|].
    rewrite list_lookup_insert_ne by lia. exact Hl. }
  split; apply Hkeep; try lia.
  - replace (argc_of argv + 2)%nat with (S (S (argc_of argv))) by lia. reflexivity.
  - replace (argc_of argv + 2)%nat with (S (S (argc_of argv))) by lia. reflexivity.
Qed.

(** The legacy path of [/usr/bin/ls], with the root at [/usr]. *)
Lemma C1_native_executable_is_wrapped_witness :
  let w := demo_world ["PREFIX=/usr"] in
  let filename := Some (legacy_data +:+ "/bin/ls") in
  let argv := Some [Some "ls"; Some "-l"; None] in
  execve w filename argv None
  = execve_via_linker w demo_real (Some "/usr/bin/ls") argv None
  /\ (calloc_ok w (argc_of argv + 2) = true ->
      exists new_argv : list (option string),
        execve w filename argv None
        = call_real demo_real (Some (select_system_linker w)) (Some new_argv)
            (envp_or_environ w None)
        /\ new_argv !! 0%nat = Some (Some (select_system_linker w))
        /\ new_argv !! 1%nat = Some (Some "/usr/bin/ls")).
Proof.
  apply (C1_native_executable_is_wrapped (demo_world ["PREFIX=/usr"]) demo_real
           (Some (legacy_data +:+ "/bin/ls")) "/usr/bin/ls" (ELF_MAGIC +:+ "...")
           (Some [Some "ls"; Some "-l"; None]) None); reflexivity.
Defined.

(** C2: for an argument vector with at least [argv[0]], the vector handed
    to the underlying [execve] for a native executable has one element
    more than the caller's, starts with the chosen linker path and the
    target, continues with the caller's arguments from index 1 on and
    ends with the terminator; the slots behind the caller's terminator
    ([junk]) play no part. *)
Theorem C2_wrap_binary_argv
    (w : world) (real : exec_call -> option Z) (target : string)
    (args : list string) (junk : list (option string)) (envp : envp_t) :
  (1 <= length args)%nat ->
  calloc_ok w (length args + 2) = true ->
  exists new_args : list string,
    execve_via_linker w real (Some target) (Some (map Some args ++ None :: junk)) envp
    = call_real real (Some (select_system_linker w))
        (Some (map Some new_args ++ [None])) (envp_or_environ w envp)
    /\ length new_args = (length args + 1)%nat
    /\ new_args !! 0%nat = Some (select_system_linker w)
    /\ new_args !! 1%nat = Some target
    /\ drop 2 new_args = drop 1 args.
Proof.
  intros Hlen Halloc. destruct args as [|a0 rest]; [simpl in Hlen; lia|].
  exists (select_system_linker w :: target :: rest).
  rewrite (execve_via_linker_args w real (Some target) a0 rest junk envp Halloc).
  repeat split. cbn [length]. lia.
Qed.

(** Three arguments, and a stale slot behind the terminator. *)
Lemma C2_wrap_binary_argv_witness :
  exists new_args : list string,
    execve_via_linker (demo_world []) demo_real (Some "/usr/bin/ls")
      (Some (map Some ["ls"; "-l"; "/tmp"] ++ None :: [Some "stale"])) None
    = call_real demo_real (Some (select_system_linker (demo_world [])))
        (Some (map Some new_args ++ [None])) (envp_or_environ (demo_world []) None)
    /\ length new_args = (length ["ls"; "-l"; "/tmp"] + 1)%nat
    /\ new_args !! 0%nat = Some (select_system_linker (demo_world []))
    /\ new_args !! 1%nat = Some "/usr/bin/ls"
    /\ drop 2 new_args = drop 1 ["ls"; "-l"; "/tmp"].
Proof.
  apply (C2_wrap_binary_argv (demo_world []) demo_real "/usr/bin/ls"
           ["ls"; "-l"; "/tmp"] [Some "stale"] None).
  - simpl. lia.
  - reflexivity.
Defined.

(** C3 at the inputs where the code departs from it: with a [NULL] or an
    empty argument vector, an in-environment native executable is handed
    the two-slot block [linker, target] and an in-environment script the
    block [linker, interpreter, arg, script]; every slot is taken and
    none is left for the terminator.  With one argument the same requests
    get a block that ends with the terminator. *)
Theorem C3_no_terminator_without_arguments :
  let w := demo_world ["PREFIX=/usr"] in
  map call_argv (calls (execve w (Some "/usr/bin/ls") None None))
  = [Some [Some "/system/bin/linker64"; Some "/usr/bin/ls"]]
  /\ map call_argv (calls (execve w (Some "/usr/bin/ls") (Some [None]) None))
     = [Some [Some "/system/bin/linker64"; Some "/usr/bin/ls"]]
  /\ map call_argv (calls (execve w (Some "/usr/bin/hello.py") (Some [None]) None))
     = [Some [Some "/system/bin/linker64"; Some "/usr/bin/python3"; Some "-u";
              Some "/usr/bin/hello.py"]]
  /\ exactly_terminated [Some "/system/bin/linker64"; Some "/usr/bin/ls"] = false
  /\ exactly_terminated [Some "/system/bin/linker64"; Some "/usr/bin/python3";
                         Some "-u"; Some "/usr/bin/hello.py"] = false
  /\ map call_argv (calls (execve w (Some "/usr/bin/ls") (Some [Some "ls"; None]) None))
     = [Some [Some "/system/bin/linker64"; Some "/usr/bin/ls"; None]].
Proof. vm_compute. repeat split. Qed.

(** C4: a script of the managed environment whose interpreter, after the
    legacy remap, is not classified in-environment is passed through: the
    request goes to the script branch, which hands its own path (the
    request's path as the entry point remapped it) and the caller's
    argument vector itself to the underlying [execve]; nothing is wrapped
    through the linker. *)
Theorem C4_foreign_interpreter_passthrough
    (w : world) (real : exec_call -> option Z) (filename : option string)
    (p : string) (sb : shebang_info_t) (argv : argv_t) (envp : envp_t) :
  dlsym_execve w = Some real ->
  remapped_or w filename = Some p ->
  path_in_prefix w (Some p) = true ->
  parse_shebang w (Some p) = Some sb ->
  path_in_prefix w (remapped_or w (Some (interpreter sb))) = false ->
  execve w filename argv envp = exec_script_via_linker w real (Some p) sb argv envp
  /\ exec_script_via_linker w real (Some p) sb argv envp
     = call_real real (Some p) argv (envp_or_environ w envp).
Proof.
  intros Hdl Hremap Hin Hparse Hout. split.
  - unfold execve.
    now rewrite Hdl, Hremap, (script_is_not_wrapped_as_elf w p sb Hparse), Hin, Hparse.
  - apply exec_script_via_linker_passthrough; [|exact Hout].
    exact (parsed_interpreter_not_empty w p sb Hparse).
Qed.

(** The script [/usr/bin/hello.sh] starts with [#!/system/bin/sh]. *)
Lemma C4_foreign_interpreter_passthrough_witness :
  execve (demo_world ["PREFIX=/usr"]) (Some "/usr/bin/hello.sh")
    (Some [Some "hello.sh"; Some "x"; None]) None
  = exec_script_via_linker (demo_world ["PREFIX=/usr"]) demo_real
      (Some "/usr/bin/hello.sh") (ShebangInfo "/system/bin/sh" EmptyString false)
      (Some [Some "hello.sh"; Some "x"; None]) None
  /\ exec_script_via_linker (demo_world ["PREFIX=/usr"]) demo_real
       (Some "/usr/bin/hello.sh") (ShebangInfo "/system/bin/sh" EmptyString false)
       (Some [Some "hello.sh"; Some "x"; None]) None
     = call_real demo_real (Some "/usr/bin/hello.sh")
         (Some [Some "hello.sh"; Some "x"; None])
         (envp_or_environ (demo_world ["PREFIX=/usr"]) None).
Proof.
  apply (C4_foreign_interpreter_passthrough (demo_world ["PREFIX=/usr"]) demo_real
           (Some "/usr/bin/hello.sh") "/usr/bin/hello.sh"
           (ShebangInfo "/system/bin/sh" EmptyString false)); reflexivity.
Defined.

(** ** The directory search *)

Section Tokens.

Lemma is_delim_colon (c : ascii) : is_delim ":" c = Ascii.eqb c ":".
Proof.
  unfold is_delim.
  change (strchr ":" c) with (if Ascii.eqb ":" c then Some ":" else None).
  rewrite Ascii.eqb_sym. destruct (Ascii.eqb c ":"); reflexivity.
Qed.

Lemma split_colon_head (s : string) :
  split_colon s
  = take_while not_colon s
      :: match advance_while not_colon s with
         | EmptyString => []
         | String _ r => split_colon r
         end.
Proof.
  induction s as [|c r IH]; [reflexivity|].
  simpl. unfold not_colon at 1 3. rewrite is_delim_colon.
  destruct (Ascii.eqb c ":"); [reflexivity|].
  cbn [negb]. now rewrite IH.
Qed.

Lemma nonempty_segments_skip (s : string) :
  nonempty_segments (advance_while (is_delim ":") s) = nonempty_segments s.
Proof.
  induction s as [|c r IH]; [reflexivity|].
  simpl advance_while. rewrite is_delim_colon.
  destruct (Ascii.eqb c ":") eqn:Hc; [|reflexivity].
  rewrite IH. unfold nonempty_segments. simpl split_colon. rewrite Hc.
  rewrite filter_cons_False; [reflexivity|]. simpl. discriminate.
Qed.

Lemma strtok_r_none (s : string) :
  strtok_r s ":" = None -> nonempty_segments s = [].
Proof.
  unfold strtok_r. rewrite <- (nonempty_segments_skip s).
  destruct (advance_while (is_delim ":") s) as [|c r]; [reflexivity|].
  cbn [is_empty]. destruct (is_empty _); discriminate.
Qed.

Lemma strtok_r_some (s token saveptr : string) :
  strtok_r s ":" = Some (token, saveptr) ->
  is_empty token = false
  /\ nonempty_segments s = token :: nonempty_segments saveptr
  /\ (String.length saveptr < String.length s)%nat.
Proof.
  unfold strtok_r. rewrite <- (nonempty_segments_skip s).
  pose proof (advance_while_strlen (is_delim ":") s) as Hskip.
  destruct (advance_while (is_delim ":") s) as [|c r] eqn:Hs1; [discriminate|].
  cbn [is_empty].
  change (fun c0 : ascii => negb (is_delim ":" c0)) with not_colon.
  assert (Hc : is_delim ":" c = false).
  { destruct s as [|d s']; [discriminate|].
    clear Hskip. revert Hs1. generalize (String d s'). intros t.
    induction t as [|x t IH]; [discriminate|].
    simpl. destruct (is_delim ":" x) eqn:Hx; [exact IH|].
    intros [= -> _]. exact Hx. }
  rewrite scanned_bytes.
  assert (Htok : is_empty (take_while not_colon (String c r)) = false).
  { simpl. unfold not_colon at 1. now rewrite Hc. }
  pose proof (scanned_strlen not_colon (String c r)) as Hlen.
  pose proof (is_empty_false_strlen _ Htok) as Hpos.
  unfold ptr_diff in Hlen.
  assert (Hsegs : nonempty_segments (String c r)
                  = take_while not_colon (String c r)
                      :: match advance_while not_colon (String c r) with
                         | EmptyString => []
                         | String _ r' => nonempty_segments r'
                         end).
  { unfold nonempty_segments at 1. rewrite split_colon_head.
    rewrite filter_cons_True by exact Htok.
    destruct (advance_while not_colon (String c r)); reflexivity. }
  destruct (advance_while not_colon (String c r)) as [|d r'] eqn:Hend;
    cbn [is_empty]; intros [= <- <-].
  - split; [exact Htok|]. split; [exact Hsegs|].
    unfold strlen in *. simpl String.length in *. lia.
  - split; [exact Htok|]. split; [exact Hsegs|].
    simpl ptr_add. rewrite !strlen_String in *. unfold strlen in *.
    simpl String.length in *. lia.
Qed.

End Tokens.

Section Search.

Variable w : world.
Variable argv : argv_t.

Lemma candidate_strlen_pos (dir file : string) :
  0 < strlen (dir +:+ "/" +:+ file).
Proof.
  rewrite !strlen_app. change (strlen "/") with 1.
  pose proof (strlen_nonneg dir). pose proof (strlen_nonneg file). lia.
Qed.

(** The loop over the tokens of the search list is the sequence of
    attempts on the candidates it submits; the fuel given by
    [search_path_and_exec] is never used up. *)
Lemma search_loop_tokens (file : string) (envp : envp_t) (fuel : nat) :
  forall (s : string) (saved : Z),
    (String.length s < fuel)%nat ->
    search_loop fuel w file argv envp s saved
    = Some (try_candidates w (submitted_candidates s file) argv envp saved).
Proof.
  induction fuel as [|fuel IH]; intros s saved Hfuel; [lia|].
  cbn [search_loop]. unfold submitted_candidates.
  destruct (strtok_r s ":") as [[token saveptr]|] eqn:Htok.
  - destruct (strtok_r_some s token saveptr Htok) as (Hne & Hsegs & Hlt).
    rewrite Hsegs, Hne. cbn [map].
    pose proof (candidate_strlen_pos token file) as Hpos.
    change (candidate_of file token) with
      ((if is_empty token then "." else token) +:+ "/" +:+ file).
    rewrite Hne.
    destruct (Z.leb_spec (strlen (token +:+ "/" +:+ file)) 0); [lia|].
    cbn [orb]. unfold fits_path_max at 1.
    destruct (Z.geb_spec (strlen (token +:+ "/" +:+ file)) PATH_MAX) as [Hlong|Hfit].
    + rewrite filter_cons_False.
      * apply IH. lia.
      * destruct (Z.ltb_spec (strlen (token +:+ "/" +:+ file)) PATH_MAX);
          [lia|discriminate].
    + rewrite filter_cons_True.
      * cbn [try_candidates].
        destruct (result (execve w (Some (token +:+ "/" +:+ file)) argv envp));
          [|reflexivity].
        rewrite IH by lia. reflexivity.
      * destruct (Z.ltb_spec (strlen (token +:+ "/" +:+ file)) PATH_MAX);
          [reflexivity|lia].
  - rewrite (strtok_r_none s Htok). reflexivity.
Qed.

Lemma search_path_and_exec_search (file : string) (envp : envp_t) :
  is_empty file = false ->
  strchr file "/" = None ->
  search_path_and_exec w (Some file) argv envp
  = if negb (strdup_ok w (search_list w)) then Some (fail_with ENOMEM)
    else Some (try_candidates w (submitted_candidates (search_list w) file)
                 argv envp ENOENT).
Proof.
  intros Hfile Hslash. unfold search_path_and_exec.
  rewrite Hfile, Hslash. fold (search_list w).
  destruct (strdup_ok w (search_list w)); [|reflexivity].
  cbn [negb]. apply search_loop_tokens. lia.
Qed.

(** The search always comes to an end. *)
Lemma search_path_and_exec_total (file : option string) (envp : envp_t) :
  exists o : outcome, search_path_and_exec w file argv envp = Some o.
Proof.
  destruct file as [f|]; [|eexists; reflexivity].
  destruct (is_empty f) eqn:Hf.
  { unfold search_path_and_exec. rewrite Hf. eexists; reflexivity. }
  destruct (strchr f "/") eqn:Hs.
  { unfold search_path_and_exec. rewrite Hf, Hs. eexists; reflexivity. }
  rewrite (search_path_and_exec_search f envp Hf Hs).
  destruct (negb (strdup_ok w (search_list w))); eexists; reflexivity.
Qed.

Lemma all_segments_nonempty (path : string) :
  Forall (fun seg => is_empty seg = false) (split_colon path) ->
  nonempty_segments path = split_colon path.
Proof.
  unfold nonempty_segments. induction 1 as [|seg segs Hseg _ IH]; [reflexivity|].
  rewrite filter_cons_True by exact Hseg. now rewrite IH.
Qed.

Lemma remembered_is_last (errors : list Z) :
  forall saved : Z,
    fold_left (fun s e => remember_errno e s) errors saved
    = default saved (last (filter (fun e => e <> ENOENT /\ e <> ENOTDIR) errors)).
Proof.
  induction errors as [|e es IH]; intros saved; [reflexivity|].
  cbn [fold_left]. rewrite IH. unfold remember_errno.
  destruct (Z.eqb_spec e ENOENT) as [->|H1].
  { rewrite filter_cons_False by (intros [? _]; congruence). reflexivity. }
  destruct (Z.eqb_spec e ENOTDIR) as [->|H2].
  { rewrite filter_cons_False by (intros [_ ?]; congruence). reflexivity. }
  rewrite filter_cons_True by (split; assumption). cbn [negb andb].
  rewrite last_cons. destruct (last (filter _ es)); reflexivity.
Qed.

(** When no attempt replaces the process image, every candidate is
    attempted and the errors are folded by [remember_errno]. *)
Lemma try_candidates_all_fail (envp : envp_t) (candidates : list string) :
  forall saved : Z,
    Forall (fun c => result (execve w (Some c) argv envp) <> None) candidates ->
    try_candidates w candidates argv envp saved
    = Outcome (concat (map (fun c => calls (execve w (Some c) argv envp)) candidates))
        (Some (fold_left (fun s e => remember_errno e s)
                 (omap (fun c => result (execve w (Some c) argv envp)) candidates)
                 saved)).
Proof.
  induction candidates as [|c cs IH]; intros saved Hall; [reflexivity|].
  inversion Hall as [|? ? Hc Hcs]; subst.
  cbn [try_candidates map concat omap list_omap].
  destruct (result (execve w (Some c) argv envp)) as [e|] eqn:He; [|congruence].
  rewrite (IH _ Hcs). reflexivity.
Qed.

End Search.

(** ** C7: which candidates the search submits *)

(** C7, as stated, fails twice.  An empty segment is not tried as the
    current directory: for the list [:/a] only [/a/tool] is submitted,
    [./tool] never.  And a candidate of [PATH_MAX] bytes or more is not
    submitted: for the list [/a] and a name of 4096 bytes nothing is. *)
Lemma C7_segments_counterexample :
  (search_candidates ":/a" "tool" = ["./tool"; "/a/tool"]
   /\ execvp (demo_world ["PATH=:/a"]) (Some "tool") (Some [Some "tool"; None])
      = Some (Outcome
                [ExecCall (Some "/a/tool") (Some [Some "tool"; None]) (Some ["PATH=:/a"])]
                (Some EACCES))
   /\ execvp (demo_world ["PATH=:/a"]) (Some "tool") (Some [Some "tool"; None])
      <> Some (try_candidates (demo_world ["PATH=:/a"])
                 (search_candidates ":/a" "tool")
                 (Some [Some "tool"; None]) (Some ["PATH=:/a"]) ENOENT))
  /\ (search_candidates "/a" long_name = ["/a/" +:+ long_name]
      /\ execvp (demo_world ["PATH=/a"]) (Some long_name) (Some [Some "x"; None])
         = Some (Outcome [] (Some ENOENT))
      /\ execvp (demo_world ["PATH=/a"]) (Some long_name) (Some [Some "x"; None])
         <> Some (try_candidates (demo_world ["PATH=/a"])
                    (search_candidates "/a" long_name)
                    (Some [Some "x"; None]) (Some ["PATH=/a"]) ENOENT)).
Proof.
  split; (split; [vm_compute; reflexivity|]); (split; [vm_compute; reflexivity|]);
    vm_compute; discriminate.
Qed.

(** C7 (amended): for a name without separator and a search list that
    has no empty segment, the list is split on [:] and, for each segment
    in left-to-right order, the candidate [directory + "/" + name] is
    built and, unless it is [PATH_MAX] bytes long or longer (then it is
    skipped), submitted to the full exec pipeline, until an attempt
    replaces the process image. *)
Theorem C7_segments_submitted_in_order
    (w : world) (file path : string) (argv : argv_t) (envp : envp_t) :
  is_empty file = false ->
  strchr file "/" = None ->
  getenv w "PATH" = Some path ->
  strdup_ok w path = true ->
  Forall (fun seg => is_empty seg = false) (split_colon path) ->
  search_path_and_exec w (Some file) argv envp
  = Some (try_candidates w
            (filter (fun c => fits_path_max c = true) (search_candidates path file))
            argv envp ENOENT).
Proof.
  intros Hfile Hslash Hpath Hdup Hsegs.
  assert (Hlist : search_list w = path).
  { unfold search_list. rewrite Hpath.
    destruct path; [|reflexivity].
    inversion Hsegs; discriminate. }
  rewrite (search_path_and_exec_search w argv file envp Hfile Hslash).
  rewrite Hlist, Hdup. cbn [negb].
  unfold submitted_candidates, search_candidates.
  now rewrite all_segments_nonempty.
Qed.

(** With [PATH=/a:/b] and the name [tool]. *)
Lemma C7_segments_submitted_in_order_witness :
  search_path_and_exec (demo_world ["PATH=/a:/b"]) (Some "tool")
    (Some [Some "tool"; None]) None
  = Some (try_candidates (demo_world ["PATH=/a:/b"])
            (filter (fun c => fits_path_max c = true) (search_candidates "/a:/b" "tool"))
            (Some [Some "tool"; None]) None ENOENT).
Proof.
  apply (C7_segments_submitted_in_order (demo_world ["PATH=/a:/b"]) "tool" "/a:/b");
    try reflexivity.
  repeat constructor.
Defined.

(** ** C8: failed attempts *)

(** C8, as stated, fails: with the list [/a:/b], the attempt on [/a/tool]
    fails with [EACCES], which is neither [ENOENT] nor [ENOTDIR], and the
    search goes on to [/b/tool] all the same. *)
Lemma C8_search_goes_on_counterexample :
  execvp (demo_world ["PATH=/a:/b"]) (Some "tool") (Some [Some "tool"; None])
  = Some (Outcome
            [ExecCall (Some "/a/tool") (Some [Some "tool"; None]) (Some ["PATH=/a:/b"]);
             ExecCall (Some "/b/tool") (Some [Some "tool"; None]) (Some ["PATH=/a:/b"])]
            (Some EACCES))
  /\ demo_real (ExecCall (Some "/a/tool") (Some [Some "tool"; None]) (Some ["PATH=/a:/b"]))
     = Some EACCES
  /\ EACCES <> ENOENT /\ EACCES <> ENOTDIR
  /\ try_candidates_stopping (demo_world ["PATH=/a:/b"])
       (search_candidates "/a:/b" "tool")
       (Some [Some "tool"; None]) (Some ["PATH=/a:/b"]) ENOENT
     = Outcome
         [ExecCall (Some "/a/tool") (Some [Some "tool"; None]) (Some ["PATH=/a:/b"])]
         (Some EACCES).
Proof. vm_compute. repeat split; discriminate. Qed.

(** C8 (amended): for a name without separator, the candidates that the
    search submits are attempted strictly left to right (for the list
    [/a:/b]: [/a/tool], then [/b/tool]) and no failure ends the search:
    as long as no attempt replaces the process image every candidate is
    attempted, and the call returns -1 with the last error that was
    neither [ENOENT] nor [ENOTDIR], or with [ENOENT] when there was
    none. *)
Theorem C8_search_goes_on_after_failures
    (w : world) (file : string) (argv : argv_t) (envp : envp_t) :
  is_empty file = false ->
  strchr file "/" = None ->
  strdup_ok w (search_list w) = true ->
  Forall (fun c => result (execve w (Some c) argv envp) <> None)
    (submitted_candidates (search_list w) file) ->
  search_path_and_exec w (Some file) argv envp
  = Some (Outcome
            (concat (map (fun c => calls (execve w (Some c) argv envp))
               (submitted_candidates (search_list w) file)))
            (Some (last_remembered
               (omap (fun c => result (execve w (Some c) argv envp))
                  (submitted_candidates (search_list w) file))))).
Proof.
  intros Hfile Hslash Hdup Hfail.
  rewrite (search_path_and_exec_search w argv file envp Hfile Hslash).
  rewrite Hdup. cbn [negb].
  rewrite (try_candidates_all_fail w argv envp _ ENOENT Hfail).
  unfold last_remembered. now rewrite remembered_is_last.
Qed.

(** With [PATH=/a:/b] both candidates are attempted, in that order, and
    the [EACCES] of the first is what the search fails with. *)
Lemma C8_search_goes_on_after_failures_witness :
  submitted_candidates (search_list (demo_world ["PATH=/a:/b"])) "tool"
  = ["/a/tool"; "/b/tool"]
  /\ search_path_and_exec (demo_world ["PATH=/a:/b"]) (Some "tool")
       (Some [Some "tool"; None]) None
     = Some (Outcome
               (concat (map (fun c => calls (execve (demo_world ["PATH=/a:/b"]) (Some c)
                                               (Some [Some "tool"; None]) None))
                  (submitted_candidates (search_list (demo_world ["PATH=/a:/b"])) "tool")))
               (Some (last_remembered
                  (omap (fun c => result (execve (demo_world ["PATH=/a:/b"]) (Some c)
                                            (Some [Some "tool"; None]) None))
                     (submitted_candidates (search_list (demo_world ["PATH=/a:/b"]))
                        "tool"))))).
Proof.
  split; [reflexivity|].
  apply (C8_search_goes_on_after_failures (demo_world ["PATH=/a:/b"]) "tool");
    try reflexivity.
  vm_compute. repeat constructor; discriminate.
Defined.

(** ** C9: the default search list *)

(** C9: for a name without separator, when [PATH] is unset or empty the
    search runs over the list [/system/bin]: its one candidate,
    [/system/bin/] followed by the name, is submitted (unless it does not
    fit in [PATH_MAX] bytes) and the search does not fail before that. *)
Theorem C9_default_search_list
    (w : world) (file : string) (argv : argv_t) (envp : envp_t) :
  is_empty file = false ->
  strchr file "/" = None ->
  getenv w "PATH" = None \/ getenv w "PATH" = Some EmptyString ->
  strdup_ok w "/system/bin" = true ->
  search_path_and_exec w (Some file) argv envp
  = search_loop (S (String.length "/system/bin")) w file argv envp "/system/bin" ENOENT
  /\ split_colon "/system/bin" = ["/system/bin"]
  /\ search_path_and_exec w (Some file) argv envp
     = Some (try_candidates w
               (filter (fun c => fits_path_max c = true) ["/system/bin/" +:+ file])
               argv envp ENOENT).
Proof.
  intros Hfile Hslash Hpath Hdup.
  assert (Hlist : search_list w = "/system/bin").
  { unfold search_list. destruct Hpath as [-> | ->]; reflexivity. }
  split; [|split].
  - unfold search_path_and_exec. rewrite Hfile, Hslash. fold (search_list w).
    now rewrite Hlist, Hdup.
  - reflexivity.
  - rewrite (search_path_and_exec_search w argv file envp Hfile Hslash).
    now rewrite Hlist, Hdup.
Qed.

(** With [PATH] unset and the name [tool]. *)
Lemma C9_default_search_list_witness :
  search_path_and_exec (demo_world ["PREFIX=/usr"]) (Some "tool")
    (Some [Some "tool"; None]) None
  = search_loop (S (String.length "/system/bin")) (demo_world ["PREFIX=/usr"]) "tool"
      (Some [Some "tool"; None]) None "/system/bin" ENOENT
  /\ split_colon "/system/bin" = ["/system/bin"]
  /\ search_path_and_exec (demo_world ["PREFIX=/usr"]) (Some "tool")
       (Some [Some "tool"; None]) None
     = Some (try_candidates (demo_world ["PREFIX=/usr"])
               (filter (fun c => fits_path_max c = true) ["/system/bin/" +:+ "tool"])
               (Some [Some "tool"; None]) None ENOENT).
Proof.
  apply (C9_default_search_list (demo_world ["PREFIX=/usr"]) "tool");
    try reflexivity.
  left. reflexivity.
Defined.

(** ** C10: the environment handed on *)

Section Environment.

Variable w : world.
Variable argv : argv_t.

Lemma envp_or_environ_idem (envp : envp_t) :
  envp_or_environ w (envp_or_environ w envp) = envp_or_environ w envp.
Proof.
  destruct envp; [reflexivity|].
  unfold envp_or_environ. destruct (environ w); reflexivity.
Qed.

Lemma execve_via_linker_envp (real : exec_call -> option Z)
    (filename : option string) (envp : envp_t) :
  Forall (fun c => call_envp c = envp_or_environ w envp)
    (calls (execve_via_linker w real filename argv envp)).
Proof.
  unfold execve_via_linker.
  destruct (negb (calloc_ok w _)); repeat constructor.
Qed.

Lemma exec_script_via_linker_envp (real : exec_call -> option Z)
    (filename : option string) (sb : shebang_info_t) (envp : envp_t) :
  Forall (fun c => call_envp c = envp_or_environ w envp)
    (calls (exec_script_via_linker w real filename sb argv envp)).
Proof.
  unfold exec_script_via_linker.
  destruct (is_empty (interpreter sb)); [constructor|].
  destruct (negb (path_in_prefix w _)); [repeat constructor|].
  destruct (negb (calloc_ok w _)); [constructor|].
  destruct (has_arg sb); repeat constructor.
Qed.

Lemma execve_envp (filename : option string) (envp : envp_t) :
  Forall (fun c => call_envp c = envp_or_environ w envp)
    (calls (execve w filename argv envp)).
Proof.
  unfold execve. destruct (dlsym_execve w) as [real|]; [|constructor].
  destruct (should_wrap_elf w _); [apply execve_via_linker_envp|].
  destruct (if path_in_prefix w _ then _ else _);
    [apply exec_script_via_linker_envp|repeat constructor].
Qed.

Lemma try_candidates_envp (envp : envp_t) (candidates : list string) :
  forall saved : Z,
    Forall (fun c => call_envp c = envp_or_environ w envp)
      (calls (try_candidates w candidates argv envp saved)).
Proof.
  induction candidates as [|c cs IH]; intros saved; [constructor|].
  cbn [try_candidates].
  pose proof (execve_envp (Some c) envp) as Hc.
  destruct (result (execve w (Some c) argv envp)); [|exact Hc].
  cbn [calls]. apply Forall_app. split; [exact Hc|apply IH].
Qed.

Lemma search_path_and_exec_envp (file : option string) (envp : envp_t) :
  exists o : outcome,
    search_path_and_exec w file argv envp = Some o
    /\ Forall (fun c => call_envp c = envp_or_environ w envp) (calls o).
Proof.
  destruct file as [f|]; [|eexists; split; [reflexivity|constructor]].
  destruct (is_empty f) eqn:Hf.
  { unfold search_path_and_exec. rewrite Hf.
    eexists; split; [reflexivity|constructor]. }
  destruct (strchr f "/") eqn:Hs.
  { unfold search_path_and_exec. rewrite Hf, Hs.
    eexists; split; [reflexivity|apply execve_envp]. }
  rewrite (search_path_and_exec_search w argv f envp Hf Hs).
  destruct (negb (strdup_ok w (search_list w)));
    eexists; (split; [reflexivity|]); [constructor|apply try_candidates_envp].
Qed.

End Environment.

(** A direct request with a [NULL] environment pointer: the one call made
    carries the environment block of the process. *)
Example null_envp_direct_request :
  calls (execve (demo_world ["PREFIX=/usr"]) (Some "/bin/true")
           (Some [Some "true"; None]) None)
  = [ExecCall (Some "/bin/true") (Some [Some "true"; None]) (Some ["PREFIX=/usr"])].
Proof. reflexivity. Qed.

Section CallsAreMade.

Variable w : world.
Variable real : exec_call -> option Z.
Variable argv : argv_t.

Hypothesis resolved : dlsym_execve w = Some real.
Hypothesis allocates : forall n : nat, calloc_ok w n = true.

Lemma execve_via_linker_calls (filename : option string) (envp : envp_t) :
  exists new_argv : list (option string),
    execve_via_linker w real filename argv envp
    = call_real real (Some (select_system_linker w)) (Some new_argv)
        (envp_or_environ w envp).
Proof. unfold execve_via_linker. rewrite allocates. eexists. reflexivity. Qed.

Lemma exec_script_via_linker_calls (filename : option string)
    (sb : shebang_info_t) (envp : envp_t) :
  is_empty (interpreter sb) = false ->
  path_in_prefix w (remapped_or w (Some (interpreter sb))) = true ->
  exists new_argv : list (option string),
    exec_script_via_linker w real filename sb argv envp
    = call_real real (Some (select_system_linker w)) (Some new_argv)
        (envp_or_environ w envp).
Proof.
  intros Hne Hin. unfold exec_script_via_linker.
  rewrite Hne, Hin, allocates. cbn [negb].
  destruct (has_arg sb); eexists; reflexivity.
Qed.

(** With the underlying [execve] found and the allocator answering,
    [execve] makes its one call on every path through it. *)
Lemma execve_calls (filename : option string) (envp : envp_t) :
  exists (path : option string) (new_argv : argv_t),
    execve w filename argv envp
    = call_real real path new_argv (envp_or_environ w envp).
Proof.
  unfold execve. rewrite resolved.
  destruct (should_wrap_elf w (remapped_or w filename)).
  { destruct (execve_via_linker_calls (remapped_or w filename) envp) as (v & ->).
    eauto. }
  destruct (path_in_prefix w (remapped_or w filename)); [|eauto].
  destruct (parse_shebang w (remapped_or w filename)) as [sb|] eqn:Hparse; [|eauto].
  assert (Hne : is_empty (interpreter sb) = false).
  { destruct (remapped_or w filename) as [p|].
    - exact (parsed_interpreter_not_empty w p sb Hparse).
    - discriminate Hparse. }
  destruct (path_in_prefix w (remapped_or w (Some (interpreter sb)))) eqn:Hin.
  - destruct (exec_script_via_linker_calls (remapped_or w filename) sb envp Hne Hin)
      as (v & ->).
    eauto.
  - rewrite (exec_script_via_linker_passthrough w real _ sb argv envp Hne Hin). eauto.
Qed.

(** A search that has a candidate to submit makes a call. *)
Lemma try_candidates_calls (envp : envp_t) (c : string) (rest : list string)
    (saved : Z) :
  exists (first : exec_call) (more : list exec_call),
    calls (try_candidates w (c :: rest) argv envp saved) = first :: more.
Proof.
  cbn [try_candidates].
  destruct (execve_calls (Some c) envp) as (path & v & ->).
  unfold call_real. cbn [result calls].
  destruct (real _); cbn [calls app]; eauto.
Qed.

End CallsAreMade.

(** C10: when the caller passes a [NULL] environment pointer to an entry
    point that takes one ([execve], [execvpe]), the underlying [execve]
    is invoked with the process's [environ] instead, whichever way the
    request is executed.  No call is ever made with another block; and
    once the underlying [execve] has been found and the allocator
    answers, the call is made: by [execve] on every request, by the
    native-executable wrapper, by the script wrapper both when it wraps
    and when it passes the request through, by the direct branch, and by
    [execvpe] for a name with a separator and for a searched name that
    has a candidate to submit. *)
Theorem C10_null_envp_is_replaced_by_environ
    (w : world) (filename : option string) (argv : argv_t) :
  (Forall (fun c => call_envp c = environ w) (calls (execve w filename argv None))
   /\ (exists o : outcome,
         execvpe w filename argv None = Some o
         /\ Forall (fun c => call_envp c = environ w) (calls o))
   /\ (forall real : exec_call -> option Z,
         Forall (fun c => call_envp c = environ w)
           (calls (execve_via_linker w real filename argv None)))
   /\ (forall (real : exec_call -> option Z) (sb : shebang_info_t),
         Forall (fun c => call_envp c = environ w)
           (calls (exec_script_via_linker w real filename sb argv None)))
   /\ (forall real : exec_call -> option Z,
         Forall (fun c => call_envp c = environ w)
           (calls (call_real real filename argv (envp_or_environ w None)))))
  /\ (forall real : exec_call -> option Z,
        dlsym_execve w = Some real ->
        (forall n : nat, calloc_ok w n = true) ->
        (exists (path : option string) (new_argv : argv_t),
            execve w filename argv None = call_real real path new_argv (environ w))
        /\ (exists new_argv : list (option string),
              execve_via_linker w real filename argv None
              = call_real real (Some (select_system_linker w)) (Some new_argv)
                  (environ w))
        /\ (forall sb : shebang_info_t,
              is_empty (interpreter sb) = false ->
              path_in_prefix w (remapped_or w (Some (interpreter sb))) = true ->
              exists new_argv : list (option string),
                exec_script_via_linker w real filename sb argv None
                = call_real real (Some (select_system_linker w)) (Some new_argv)
                    (environ w))
        /\ (forall sb : shebang_info_t,
              is_empty (interpreter sb) = false ->
              path_in_prefix w (remapped_or w (Some (interpreter sb))) = false ->
              exec_script_via_linker w real filename sb argv None
              = call_real real filename argv (environ w))
        /\ (path_in_prefix w (remapped_or w filename) = false ->
            execve w filename argv None
            = call_real real (remapped_or w filename) argv (environ w))
        /\ (forall file : string,
              is_Some (strchr file "/") ->
              exists (path : option string) (new_argv : argv_t),
                execvpe w (Some file) argv None
                = Some (call_real real path new_argv (environ w)))
        /\ (forall file c : string, forall rest : list string,
              is_empty file = false ->
              strchr file "/" = None ->
              strdup_ok w (search_list w) = true ->
              submitted_candidates (search_list w) file = c :: rest ->
              exists (o : outcome) (first : exec_call) (more : list exec_call),
                execvpe w (Some file) argv None = Some o
                /\ calls o = first :: more
                /\ Forall (fun c => call_envp c = environ w) (calls o))).
Proof.
  split.
  { split; [exact (execve_envp w argv filename None)|].
    split.
    { unfold execvpe.
      destruct (search_path_and_exec_envp w argv filename (envp_or_environ w None))
        as (o & Ho & Hcalls).
      exists o. split; [exact Ho|]. now rewrite envp_or_environ_idem in Hcalls. }
    split; [intros real; exact (execve_via_linker_envp w argv real filename None)|].
    split; [intros real sb; exact (exec_script_via_linker_envp w argv real filename sb None)|].
    intros real. repeat constructor. }
  intros real Hdl Halloc.
  split; [exact (execve_calls w real argv Hdl Halloc filename None)|].
  split; [exact (execve_via_linker_calls w real argv Halloc filename None)|].
  split; [intros sb; exact (exec_script_via_linker_calls w real argv Halloc filename sb None)|].
  split.
  { intros sb Hne Hout.
    exact (exec_script_via_linker_passthrough w real filename sb argv None Hne Hout). }
  split.
  { intros Hout.
    assert (Hwrap : should_wrap_elf w (remapped_or w filename) = false).
    { unfold should_wrap_elf. destruct (remapped_or w filename) as [f|]; [|reflexivity].
      rewrite Hout. cbn [negb].
      repeat match goal with
             | |- (if ?b then false else _) = false => destruct b; [reflexivity|]
             end.
      reflexivity. }
    unfold execve. now rewrite Hdl, Hwrap, Hout. }
  split.
  { intros file [tail Hslash].
    assert (Hfile : is_empty file = false)
      by (destruct file; [discriminate Hslash|reflexivity]).
    unfold execvpe, search_path_and_exec. rewrite Hfile, Hslash.
    destruct (execve_calls w real argv Hdl Halloc (Some file) (envp_or_environ w None))
      as (path & v & Hcall).
    rewrite envp_or_environ_idem in Hcall. rewrite Hcall. eauto. }
  intros file c rest Hfile Hslash Hdup Hcands. unfold execvpe.
  rewrite (search_path_and_exec_search w argv file _ Hfile Hslash), Hdup, Hcands.
  cbn [negb].
  destruct (try_candidates_calls w real argv Hdl Halloc (envp_or_environ w None) c rest ENOENT)
    as (first & more & Hcalls).
  eexists _, first, more. split; [reflexivity|]. split; [exact Hcalls|].
  pose proof (try_candidates_envp w argv (envp_or_environ w None) (c :: rest) ENOENT) as Henv.
  now rewrite envp_or_environ_idem in Henv.
Qed.

(** With the root at [/usr] and a [NULL] environment pointer: the native
    executable [/usr/bin/ls], the script [/usr/bin/hello.py] wrapped, the
    script [/usr/bin/hello.sh] passed through, [/bin/true] directly, and
    the searched name [tool]. *)
Lemma C10_null_envp_is_replaced_by_environ_witness :
  (exists new_argv : list (option string),
      execve_via_linker (demo_world ["PREFIX=/usr"; "PATH=/a:/b"]) demo_real
        (Some "/usr/bin/ls") (Some [Some "x"; None]) None
      = call_real demo_real
          (Some (select_system_linker (demo_world ["PREFIX=/usr"; "PATH=/a:/b"])))
          (Some new_argv) (environ (demo_world ["PREFIX=/usr"; "PATH=/a:/b"])))
  /\ (exists new_argv : list (option string),
        exec_script_via_linker (demo_world ["PREFIX=/usr"; "PATH=/a:/b"]) demo_real
          (Some "/usr/bin/ls") (ShebangInfo "/usr/bin/python3" "-u" true)
          (Some [Some "x"; None]) None
        = call_real demo_real
            (Some (select_system_linker (demo_world ["PREFIX=/usr"; "PATH=/a:/b"])))
            (Some new_argv) (environ (demo_world ["PREFIX=/usr"; "PATH=/a:/b"])))
  /\ exec_script_via_linker (demo_world ["PREFIX=/usr"; "PATH=/a:/b"]) demo_real
       (Some "/usr/bin/ls") (ShebangInfo "/system/bin/sh" EmptyString false)
       (Some [Some "x"; None]) None
     = call_real demo_real (Some "/usr/bin/ls") (Some [Some "x"; None])
         (environ (demo_world ["PREFIX=/usr"; "PATH=/a:/b"]))
  /\ (exists (o : outcome) (first : exec_call) (more : list exec_call),
        execvpe (demo_world ["PREFIX=/usr"; "PATH=/a:/b"]) (Some "tool")
          (Some [Some "x"; None]) None = Some o
        /\ calls o = first :: more
        /\ Forall (fun c => call_envp c = environ (demo_world ["PREFIX=/usr"; "PATH=/a:/b"]))
             (calls o)).
Proof.
  destruct (C10_null_envp_is_replaced_by_environ
              (demo_world ["PREFIX=/usr"; "PATH=/a:/b"]) (Some "/usr/bin/ls")
              (Some [Some "x"; None])) as [_ Hcalls].
  destruct (Hcalls demo_real eq_refl (fun _ => eq_refl))
    as (_ & Hbinary & Hscript & Hpass & _ & _ & Hsearch).
  split; [exact Hbinary|].
  split; [apply Hscript; reflexivity|].
  split; [apply Hpass; reflexivity|].
  apply (Hsearch "tool" "/a/tool" ["/b/tool"]); reflexivity.
Defined.

(** ** More on prefixes and the path classifier *)

Section PrefixFacts.

Lemma prefix_split (p v : string) :
  String.prefix p v = true -> v = p +:+ ptr_add v (String.length p).
Proof.
  revert v. induction p as [|c p IH]; intros v Hpre.
  - rewrite append_nil_l. reflexivity.
  - destruct v as [|d v]; [discriminate Hpre|].
    simpl in Hpre. destruct (ascii_dec c d) as [->|]; [|discriminate].
    rewrite append_String. simpl. f_equal. apply IH. exact Hpre.
Qed.

Lemma prefix_app_l (root sfx : string) : String.prefix root (root +:+ sfx) = true.
Proof. apply prefix_app. Qed.

End PrefixFacts.

(** X19: [starts_with(value, prefix)] holds exactly when [value] is
    [prefix] followed by some rest, byte for byte; a [NULL] value or
    prefix never matches. *)
Theorem X19_starts_with_iff (v p : string) :
  (starts_with (Some v) (Some p) = true <-> exists rest : string, v = p +:+ rest)
  /\ starts_with None (Some p) = false
  /\ starts_with (Some v) None = false.
Proof.
  split; [|split; reflexivity]. unfold starts_with. split.
  - intros Hpre. eexists. exact (prefix_split p v Hpre).
  - intros [rest ->]. apply prefix_app.
Qed.

Section Classifier.

Variable w : world.

(** The remap either leaves the pointer alone or yields the root followed
    by a suffix. *)
Lemma remapped_or_cases (path : option string) :
  remapped_or w path = path
  \/ exists root sfx : string,
       getenv w "PREFIX" = Some root
       /\ is_empty root = false
       /\ remapped_or w path = Some (root +:+ sfx).
Proof.
  unfold remapped_or, map_legacy_termux_usr_path.
  destruct path as [p|]; [|left; reflexivity].
  change (PATH_MAX =? 0) with false. cbv iota.
  destruct (getenv w "PREFIX") as [root|]; [|left; reflexivity].
  destruct (is_empty root) eqn:Hroot; [left; reflexivity|].
  match goal with
  | |- context [match ?s with Some _ => _ | None => _ end] =>
      destruct s as [sfx|]; [|left; reflexivity]
  end.
  unfold snprintf_ss.
  destruct (Z.ltb_spec 0 (strlen (root +:+ sfx))); [|left; reflexivity].
  destruct (Z.ltb_spec (strlen (root +:+ sfx)) PATH_MAX) as [Hfit|]; [|left; reflexivity].
  cbn [andb]. right. exists root, sfx.
  split; [reflexivity|]. split; [exact Hroot|].
  rewrite take_bytes_all; [reflexivity|].
  unfold strlen, PATH_MAX in *. lia.
Qed.

Lemma nonempty_and_prefix_of_root (root check : string) :
  is_empty root = false ->
  String.prefix root check = true ->
  nonempty_and_prefix_of (Some root) (Some check) = true.
Proof. intros Hne Hpre. unfold nonempty_and_prefix_of, starts_with. now rewrite Hne, Hpre. Qed.

Lemma path_in_prefix_remapped (p root sfx : string) :
  deref p = "/"%char ->
  getenv w "PREFIX" = Some root ->
  is_empty root = false ->
  remapped_or w (Some p) = Some (root +:+ sfx) ->
  path_in_prefix w (Some p) = true.
Proof.
  intros Habs Hroot Hne Hremap. unfold path_in_prefix.
  rewrite Habs, Hremap, Hroot. cbn [Ascii.eqb negb].
  change (Ascii.eqb "/" "/") with true. cbn [negb].
  rewrite (nonempty_and_prefix_of_root root (root +:+ sfx) Hne (prefix_app root sfx)).
  destruct (nonempty_and_prefix_of _ _); reflexivity.
Qed.

End Classifier.

(** X4: an absolute path that begins with the non-empty value of
    [PREFIX] or of [TERMUX__ROOTFS] is classified in-environment, and so
    is every path made of a legacy prefix and a suffix when [PREFIX] is
    set and the rewrite fits. *)
Theorem X4_paths_under_the_roots_are_in_environment (w : world) :
  (forall (name p root : string),
      name = "PREFIX" \/ name = "TERMUX__ROOTFS" ->
      getenv w name = Some root ->
      is_empty root = false ->
      deref p = "/"%char ->
      String.prefix root p = true ->
      path_in_prefix w (Some p) = true)
  /\ (forall (root lp sfx : string),
      getenv w "PREFIX" = Some root ->
      is_empty root = false ->
      lp = legacy_data \/ lp = legacy_user ->
      strlen root + strlen sfx < PATH_MAX ->
      path_in_prefix w (Some (lp +:+ sfx)) = true).
Proof.
  split.
  - intros name p root Hname Hroot Hne Habs Hpre.
    destruct (remapped_or_cases w (Some p)) as [Hsame | (r & sfx & Hr & Hrne & Hremap)].
    + unfold path_in_prefix. rewrite Habs, Hsame.
      change (Ascii.eqb "/" "/") with true. cbn [negb].
      destruct Hname as [-> | ->]; rewrite Hroot.
      * rewrite (nonempty_and_prefix_of_root root p Hne Hpre).
        destruct (nonempty_and_prefix_of _ _); reflexivity.
      * now rewrite (nonempty_and_prefix_of_root root p Hne Hpre).
    + exact (path_in_prefix_remapped w p r sfx Habs Hr Hrne Hremap).
  - intros root lp sfx Hroot Hne Hlp Hfit.
    apply (path_in_prefix_remapped w _ root sfx); try assumption.
    + destruct Hlp as [-> | ->]; reflexivity.
    + unfold remapped_or.
      rewrite (map_legacy_match w root lp sfx Hroot Hne Hlp).
      rewrite bool_decide_eq_true_2 by exact Hfit.
      rewrite take_bytes_all; [reflexivity|].
      pose proof (strlen_app root sfx) as Hlen. unfold strlen, PATH_MAX in *. lia.
Qed.

(** With the root at [/usr]: a path under it, and a legacy path. *)
Lemma X4_paths_under_the_roots_are_in_environment_witness :
  path_in_prefix (demo_world ["PREFIX=/usr"]) (Some "/usr/bin/ls") = true
  /\ path_in_prefix (demo_world ["PREFIX=/usr"]) (Some (legacy_user +:+ "/bin/ls")) = true.
Proof.
  destruct (X4_paths_under_the_roots_are_in_environment (demo_world ["PREFIX=/usr"]))
    as [Hroot Hlegacy].
  split.
  - apply (Hroot "PREFIX" "/usr/bin/ls" "/usr");
      [left; reflexivity | reflexivity | reflexivity | reflexivity | reflexivity].
  - apply (Hlegacy "/usr" legacy_user "/bin/ls");
      [reflexivity | reflexivity | right; reflexivity | reflexivity].
Defined.

(** X5: an absolute path that contains the layout marker anywhere is
    classified in-environment whatever the environment holds; and when
    both [PREFIX] and [TERMUX__ROOTFS] are unset or empty, the absolute
    paths that contain the marker are the only ones that are. *)
Theorem X5_layout_marker_classification (w : world) (p : string) :
  (deref p = "/"%char ->
   is_Some (strstr p layout_marker) ->
   path_in_prefix w (Some p) = true)
  /\ (unset_or_empty w "PREFIX" ->
      unset_or_empty w "TERMUX__ROOTFS" ->
      path_in_prefix w (Some p) = true ->
      deref p = "/"%char /\ is_Some (strstr p layout_marker)).
Proof.
  split.
  - intros Habs Hmark.
    destruct (remapped_or_cases w (Some p)) as [Hsame | (r & sfx & Hr & Hrne & Hremap)].
    + unfold path_in_prefix. rewrite Habs, Hsame.
      change (Ascii.eqb "/" "/") with true. cbn [negb].
      rewrite (bool_decide_eq_true_2 _ Hmark).
      repeat match goal with |- (if ?b then true else _) = true => destruct b; [reflexivity|] end.
      reflexivity.
    + exact (path_in_prefix_remapped w p r sfx Habs Hr Hrne Hremap).
  - intros Hprefix Hrootfs. unfold path_in_prefix.
    destruct (Ascii.eqb_spec (deref p) "/") as [Habs|]; [|discriminate].
    cbn [negb]. unfold remapped_or.
    rewrite (map_legacy_no_root w (Some p) Hprefix).
    assert (Hno : forall name, unset_or_empty w name ->
              nonempty_and_prefix_of (getenv w name) (Some p) = false).
    { intros name [-> | ->]; reflexivity. }
    rewrite (Hno _ Hrootfs), (Hno _ Hprefix).
    intros Hdec. split; [exact Habs|]. exact (bool_decide_eq_true_1 _ Hdec).
Qed.

(** A path of the alternate layout, in an empty environment. *)
Lemma X5_layout_marker_classification_witness :
  path_in_prefix (demo_world []) (Some "/data/app/files/prefix/bin/sh") = true
  /\ (deref "/data/app/files/prefix/bin/sh" = "/"%char
      /\ is_Some (strstr "/data/app/files/prefix/bin/sh" layout_marker)).
Proof.
  destruct (X5_layout_marker_classification (demo_world [])
              "/data/app/files/prefix/bin/sh") as [Hin Honly].
  split.
  - apply Hin; [reflexivity | vm_compute; eauto].
  - apply Honly; [left; reflexivity | left; reflexivity |].
    apply Hin; [reflexivity | vm_compute; eauto].
Defined.

(** ** More on the planner and the wrappers *)

Section PlannerFacts.

Variable w : world.

Lemma should_wrap_elf_needs_prefix (filename : option string) :
  path_in_prefix w filename = false -> should_wrap_elf w filename = false.
Proof.
  intros Hout. unfold should_wrap_elf. destruct filename as [f|]; [|reflexivity].
  rewrite Hout. cbn [negb].
  repeat match goal with |- (if ?b then false else _) = false => destruct b; [reflexivity|] end.
  reflexivity.
Qed.

Lemma relative_not_remapped (p : string) :
  deref p <> "/"%char -> remapped_or w (Some p) = Some p.
Proof.
  intros Hrel. unfold remapped_or.
  destruct (relative_no_legacy_prefix p Hrel) as [H1 H2].
  now rewrite (map_legacy_no_match w p H1 H2).
Qed.

Lemma relative_not_in_prefix (p : string) :
  deref p <> "/"%char -> path_in_prefix w (Some p) = false.
Proof.
  intros Hrel. unfold path_in_prefix.
  destruct (Ascii.eqb_spec (deref p) "/"); [contradiction|reflexivity].
Qed.

Lemma is_elf_binary_inv (p : string) :
  is_elf_binary w (Some p) = true ->
  exists content : string,
    fs_open w p = Some (RegularFile content) /\ take_bytes 4 content = ELF_MAGIC.
Proof.
  unfold is_elf_binary, open_read.
  destruct (fs_open w p) as [[content|]|]; try discriminate.
  intros Helf. exists content. split; [reflexivity|].
  destruct (take_bytes 4 content) as [|c0 [|c1 [|c2 [|c3 r]]]]; try discriminate Helf.
  rewrite !andb_true_iff in Helf. destruct Helf as ((((Hn & H0) & H1) & H2) & H3).
  unfold byte_at in *. cbn [String.get] in *.
  apply Ascii.eqb_eq in H0, H1, H2, H3. subst.
  destruct r as [|c4 r]; [reflexivity|].
  apply Z.eqb_eq in Hn. unfold strlen in Hn. simpl String.length in Hn. lia.
Qed.

Lemma short_file_is_not_elf (p content : string) :
  fs_open w p = Some (RegularFile content) ->
  strlen content <= 3 ->
  is_elf_binary w (Some p) = false.
Proof.
  intros Hopen Hshort.
  destruct (is_elf_binary w (Some p)) eqn:Helf; [|reflexivity].
  destruct (is_elf_binary_inv p Helf) as (content' & Hopen' & Hmagic).
  rewrite Hopen in Hopen'. injection Hopen' as <-.
  assert (Hlen : strlen (take_bytes 4 content) = 4) by now rewrite Hmagic.
  assert (Hle : forall k s, strlen (take_bytes k s) <= strlen s).
  { induction k as [|k IH]; intros s; destruct s as [|c s]; cbn [take_bytes];
      rewrite ?strlen_String; try (unfold strlen; simpl; lia).
    specialize (IH s). lia. }
  specialize (Hle 4%nat content). lia.
Qed.

Lemma parse_shebang_closed_file (p : string) :
  fs_open w p = None \/ fs_open w p = Some Unreadable ->
  parse_shebang w (Some p) = None /\ is_elf_binary w (Some p) = false.
Proof.
  intros [H|H]; unfold parse_shebang, is_elf_binary, open_read; rewrite H; split; reflexivity.
Qed.

Lemma parse_shebang_short_file (p content : string) :
  fs_open w p = Some (RegularFile content) ->
  strlen content <= 2 ->
  parse_shebang w (Some p) = None.
Proof.
  intros Hopen Hshort. unfold parse_shebang, open_read. rewrite Hopen.
  rewrite take_bytes_all by (unfold strlen in Hshort; lia).
  destruct (Z.leb_spec (strlen content) 2); [reflexivity|lia].
Qed.

End PlannerFacts.

(** X2: a request whose path, after the legacy remap, is not classified
    in-environment is executed directly: one call of the underlying
    [execve] with that path and the caller's argument vector, whatever
    the file holds. *)
Theorem X2_path_outside_environment_is_direct
    (w : world) (real : exec_call -> option Z) (filename : option string)
    (argv : argv_t) (envp : envp_t) :
  dlsym_execve w = Some real ->
  path_in_prefix w (remapped_or w filename) = false ->
  execve w filename argv envp
  = call_real real (remapped_or w filename) argv (envp_or_environ w envp).
Proof.
  intros Hdl Hout. unfold execve.
  now rewrite Hdl, (should_wrap_elf_needs_prefix w _ Hout), Hout.
Qed.

(** [/bin/true] with the root at [/usr]. *)
Lemma X2_path_outside_environment_is_direct_witness :
  execve (demo_world ["PREFIX=/usr"]) (Some "/bin/true") (Some [Some "true"; None]) None
  = call_real demo_real (remapped_or (demo_world ["PREFIX=/usr"]) (Some "/bin/true"))
      (Some [Some "true"; None]) (envp_or_environ (demo_world ["PREFIX=/usr"]) None).
Proof.
  apply (X2_path_outside_environment_is_direct (demo_world ["PREFIX=/usr"]) demo_real);
    reflexivity.
Defined.

(** X3: a relative path is never rewritten and never wrapped: the
    underlying [execve] is called with the very path and argument vector
    of the caller, in every environment and whatever the file holds. *)
Theorem X3_relative_path_is_direct
    (w : world) (real : exec_call -> option Z) (p : string)
    (argv : argv_t) (envp : envp_t) :
  dlsym_execve w = Some real ->
  deref p <> "/"%char ->
  execve w (Some p) argv envp
  = call_real real (Some p) argv (envp_or_environ w envp).
Proof.
  intros Hdl Hrel. unfold execve.
  rewrite Hdl, (relative_not_remapped w p Hrel).
  now rewrite (should_wrap_elf_needs_prefix w _ (relative_not_in_prefix w p Hrel)),
    (relative_not_in_prefix w p Hrel).
Qed.

(** [usr/bin/ls], relative, next to a root at [/usr]. *)
Lemma X3_relative_path_is_direct_witness :
  execve (demo_world ["PREFIX=/usr"]) (Some "usr/bin/ls") (Some [Some "ls"; None]) None
  = call_real demo_real (Some "usr/bin/ls") (Some [Some "ls"; None])
      (envp_or_environ (demo_world ["PREFIX=/usr"]) None).
Proof.
  apply (X3_relative_path_is_direct (demo_world ["PREFIX=/usr"]) demo_real "usr/bin/ls").
  - reflexivity.
  - vm_compute. discriminate.
Defined.

(** X6: when the file at the remapped path cannot be opened, cannot be
    read, or holds at most two bytes, neither detection succeeds and the
    request is executed directly, so that the underlying [execve] reports
    the error. *)
Theorem X6_unreadable_or_tiny_file_is_direct
    (w : world) (real : exec_call -> option Z) (filename : option string)
    (p : string) (argv : argv_t) (envp : envp_t) :
  dlsym_execve w = Some real ->
  remapped_or w filename = Some p ->
  (fs_open w p = None
   \/ fs_open w p = Some Unreadable
   \/ exists content : string,
        fs_open w p = Some (RegularFile content) /\ strlen content <= 2) ->
  execve w filename argv envp
  = call_real real (Some p) argv (envp_or_environ w envp).
Proof.
  intros Hdl Hremap Hfile.
  assert (Hno : parse_shebang w (Some p) = None /\ is_elf_binary w (Some p) = false).
  { destruct Hfile as [H | [H | (content & Hopen & Hshort)]].
    - apply parse_shebang_closed_file. now left.
    - apply parse_shebang_closed_file. now right.
    - split; [exact (parse_shebang_short_file w p content Hopen Hshort)|].
      apply (short_file_is_not_elf w p content Hopen). lia. }
  destruct Hno as [Hparse Helf].
  assert (Hwrap : should_wrap_elf w (Some p) = false).
  { unfold should_wrap_elf. rewrite Helf.
    repeat match goal with |- (if ?b then false else _) = false => destruct b; [reflexivity|] end.
    reflexivity. }
  unfold execve. rewrite Hdl, Hremap, Hwrap, Hparse.
  destruct (path_in_prefix w (Some p)); reflexivity.
Qed.

(** A missing file under the root [/usr]. *)
Lemma X6_unreadable_or_tiny_file_is_direct_witness :
  execve (demo_world ["PREFIX=/usr"]) (Some "/usr/bin/missing") (Some [Some "m"; None]) None
  = call_real demo_real (Some "/usr/bin/missing") (Some [Some "m"; None])
      (envp_or_environ (demo_world ["PREFIX=/usr"]) None).
Proof.
  apply (X6_unreadable_or_tiny_file_is_direct (demo_world ["PREFIX=/usr"]) demo_real
           (Some "/usr/bin/missing") "/usr/bin/missing");
    [reflexivity | reflexivity | left; reflexivity].
Defined.

(** X7: the format detector answers true exactly for a file that can be
    opened and read and whose first four bytes are [0x7f 'E' 'L' 'F'];
    a shorter file, a failed [open] and a failed [read] all answer
    false. *)
Theorem X7_is_elf_binary_iff (w : world) (p : string) :
  is_elf_binary w (Some p) = true
  <-> exists content : string,
        fs_open w p = Some (RegularFile content) /\ take_bytes 4 content = ELF_MAGIC.
Proof.
  split.
  - apply is_elf_binary_inv.
  - intros (content & Hopen & Hmagic). exact (is_elf_binary_magic w p content Hopen Hmagic).
Qed.

(** X1: a script of the managed environment whose interpreter, after the
    legacy remap, is classified in-environment is run through the system
    linker: for an argument vector with at least [argv[0]], the
    underlying [execve] is called on the linker with the block
    [linker, interpreter, arg?, script, argv[1..], NULL], the interpreter
    being the remapped one, the argument slot being there exactly when
    the shebang line had one, and [argv[0]] being left out. *)
Theorem X1_script_is_wrapped_through_linker
    (w : world) (real : exec_call -> option Z) (filename : option string)
    (p : string) (sb : shebang_info_t) (a0 : string) (rest : list string)
    (junk : list (option string)) (envp : envp_t) :
  dlsym_execve w = Some real ->
  remapped_or w filename = Some p ->
  path_in_prefix w (Some p) = true ->
  parse_shebang w (Some p) = Some sb ->
  path_in_prefix w (remapped_or w (Some (interpreter sb))) = true ->
  calloc_ok w (length (a0 :: rest) + (if has_arg sb then 4 else 3)) = true ->
  execve w filename (Some (map Some (a0 :: rest) ++ None :: junk)) envp
  = call_real real (Some (select_system_linker w))
      (Some (Some (select_system_linker w)
             :: remapped_or w (Some (interpreter sb))
             :: (if has_arg sb then [Some (arg sb)] else [])
             ++ Some p :: map Some rest ++ [None]))
      (envp_or_environ w envp).
Proof.
  intros Hdl Hremap Hin Hparse Hinterp Halloc. unfold execve.
  rewrite Hdl, Hremap, (script_is_not_wrapped_as_elf w p sb Hparse), Hin, Hparse.
  rewrite (exec_script_via_linker_args w real (Some p) sb a0 rest junk envp
             (parsed_interpreter_not_empty w p sb Hparse) Hinterp Halloc).
  unfold script_prefix. cbn [app]. now rewrite <- app_assoc.
Qed.

(** The script [/usr/bin/hello.py] starts with [#!/usr/bin/python3 -u]. *)
Lemma X1_script_is_wrapped_through_linker_witness :
  execve (demo_world ["PREFIX=/usr"]) (Some "/usr/bin/hello.py")
    (Some (map Some ["hello.py"; "x"] ++ None :: [Some "stale"])) None
  = call_real demo_real (Some "/system/bin/linker64")
      (Some [Some "/system/bin/linker64"; Some "/usr/bin/python3"; Some "-u";
             Some "/usr/bin/hello.py"; Some "x"; None])
      (Some ["PREFIX=/usr"]).
Proof.
  apply (X1_script_is_wrapped_through_linker (demo_world ["PREFIX=/usr"]) demo_real
           (Some "/usr/bin/hello.py") "/usr/bin/hello.py"
           (ShebangInfo "/usr/bin/python3" "-u" true) "hello.py" ["x"] [Some "stale"] None);
    reflexivity.
Defined.

(** X10: [execve] calls the underlying [execve] at most once.  When it
    makes no call it fails with [ENOSYS] (no underlying [execve] was
    found) or [ENOMEM] (the block for the new vector could not be
    allocated) and with no other error of its own; when it makes a call,
    its result is the result of that call. *)
Theorem X10_execve_one_call_or_own_error
    (w : world) (filename : option string) (argv : argv_t) (envp : envp_t) :
  (dlsym_execve w = None
   /\ execve w filename argv envp = Outcome [] (Some ENOSYS))
  \/ (exists real : exec_call -> option Z,
        dlsym_execve w = Some real
        /\ (execve w filename argv envp = Outcome [] (Some ENOMEM)
            \/ exists c : exec_call,
                 execve w filename argv envp = Outcome [c] (real c))).
Proof.
  unfold execve. destruct (dlsym_execve w) as [real|]; [right|left; split; reflexivity].
  exists real. split; [reflexivity|].
  destruct (should_wrap_elf w (remapped_or w filename)).
  { unfold execve_via_linker. destruct (calloc_ok w _); cbn [negb];
      [right; eexists; reflexivity|left; reflexivity]. }
  destruct (path_in_prefix w (remapped_or w filename));
    [|right; eexists; reflexivity].
  destruct (parse_shebang w (remapped_or w filename)) as [sb|] eqn:Hparse;
    [|right; eexists; reflexivity].
  assert (Hne : is_empty (interpreter sb) = false).
  { destruct (remapped_or w filename) as [p|].
    - exact (parsed_interpreter_not_empty w p sb Hparse).
    - discriminate Hparse. }
  unfold exec_script_via_linker. rewrite Hne.
  destruct (path_in_prefix w (remapped_or w (Some (interpreter sb)))); cbn [negb];
    [|right; eexists; reflexivity].
  destruct (calloc_ok w _); cbn [negb]; [|left; reflexivity].
  destruct (has_arg sb); right; eexists; reflexivity.
Qed.

(** X17: the call made by [execve_via_linker] is a call of one of the two
    system linkers ([linker64] when it is executable, [linker]
    otherwise), a path that [should_wrap_elf] refuses: a wrapped request
    is not wrapped a second time. *)
Theorem X17_wrapped_call_is_not_wrapped_again
    (w : world) (real : exec_call -> option Z) (filename : option string)
    (argv : argv_t) (envp : envp_t) :
  Forall (fun c => call_path c = Some (select_system_linker w)
                   /\ is_linker_path (call_path c) = true
                   /\ should_wrap_elf w (call_path c) = false)
    (calls (execve_via_linker w real filename argv envp))
  /\ select_system_linker w
     = (if fs_access_x w "/system/bin/linker64"
        then "/system/bin/linker64" else "/system/bin/linker").
Proof.
  split; [|reflexivity]. unfold execve_via_linker.
  destruct (calloc_ok w _); cbn [negb]; [|constructor].
  repeat constructor; cbn [call_path];
    unfold select_system_linker; destruct (fs_access_x w _); reflexivity.
Qed.

(** X18: when the caller's vector has no argument at all ([argv] is
    [NULL] or its first slot is [NULL]), the block that
    [execve_via_linker] hands on has exactly the two slots [linker] and
    [target], and the one that [exec_script_via_linker] hands on exactly
    the slots [linker, interpreter, arg?, script]: the block ends with
    the script or target and has no slot behind it. *)
Theorem X18_blocks_for_an_empty_vector
    (w : world) (real : exec_call -> option Z) (target : option string)
    (sb : shebang_info_t) (argv : argv_t) (envp : envp_t) :
  argc_of argv = O ->
  (calloc_ok w 2 = true ->
   execve_via_linker w real target argv envp
   = call_real real (Some (select_system_linker w))
       (Some [Some (select_system_linker w); target]) (envp_or_environ w envp))
  /\ (is_empty (interpreter sb) = false ->
      path_in_prefix w (remapped_or w (Some (interpreter sb))) = true ->
      calloc_ok w (if has_arg sb then 4 else 3) = true ->
      exec_script_via_linker w real target sb argv envp
      = call_real real (Some (select_system_linker w))
          (Some (script_prefix w (remapped_or w (Some (interpreter sb))) target sb))
          (envp_or_environ w envp)).
Proof.
  intros Hargc. split.
  - intros Halloc. exact (execve_via_linker_no_args w real target argv envp Hargc Halloc).
  - intros Hne Hin Halloc.
    exact (exec_script_via_linker_no_args w real target sb argv envp Hne Hin Hargc Halloc).
Qed.

(** A [NULL] vector for the native executable, an empty one for the
    script. *)
Lemma X18_blocks_for_an_empty_vector_witness :
  execve_via_linker (demo_world ["PREFIX=/usr"]) demo_real (Some "/usr/bin/ls") None None
  = call_real demo_real (Some "/system/bin/linker64")
      (Some [Some "/system/bin/linker64"; Some "/usr/bin/ls"]) (Some ["PREFIX=/usr"])
  /\ exec_script_via_linker (demo_world ["PREFIX=/usr"]) demo_real
       (Some "/usr/bin/hello.py") (ShebangInfo "/usr/bin/python3" "-u" true)
       (Some [None]) None
     = call_real demo_real (Some "/system/bin/linker64")
         (Some [Some "/system/bin/linker64"; Some "/usr/bin/python3"; Some "-u";
                Some "/usr/bin/hello.py"])
         (Some ["PREFIX=/usr"]).
Proof.
  split.
  - apply (X18_blocks_for_an_empty_vector (demo_world ["PREFIX=/usr"]) demo_real
             (Some "/usr/bin/ls") (ShebangInfo "/usr/bin/python3" "-u" true) None None);
      reflexivity.
  - apply (X18_blocks_for_an_empty_vector (demo_world ["PREFIX=/usr"]) demo_real
             (Some "/usr/bin/hello.py") (ShebangInfo "/usr/bin/python3" "-u" true)
             (Some [None]) None); reflexivity.
Defined.

(** X20: [execve_via_linker] never looks at the content of [argv[0]]:
    two vectors that differ in their first argument only lead to the same
    call. *)
Theorem X20_argv0_is_dropped
    (w : world) (real : exec_call -> option Z) (target : option string)
    (a0 b0 : string) (rest : list string) (junk : list (option string))
    (envp : envp_t) :
  execve_via_linker w real target (Some (map Some (a0 :: rest) ++ None :: junk)) envp
  = execve_via_linker w real target (Some (map Some (b0 :: rest) ++ None :: junk)) envp.
Proof.
  destruct (calloc_ok w (length (a0 :: rest) + 2)) eqn:Halloc.
  - rewrite (execve_via_linker_args w real target a0 rest junk envp Halloc).
    rewrite (execve_via_linker_args w real target b0 rest junk envp Halloc).
    reflexivity.
  - unfold execve_via_linker, argc_of. rewrite !count_until_null_args.
    cbn [length] in *. now rewrite Halloc.
Qed.

(** X22: with [PREFIX] set, a request for a legacy path whose rewrite
    fits is served exactly as the request for the rewritten path,
    provided the rewritten path does not itself begin with a legacy
    prefix. *)
Theorem X22_legacy_path_is_served_as_its_rewrite
    (w : world) (root lp sfx : string) (argv : argv_t) (envp : envp_t) :
  getenv w "PREFIX" = Some root ->
  is_empty root = false ->
  lp = legacy_data \/ lp = legacy_user ->
  strlen root + strlen sfx < PATH_MAX ->
  String.prefix legacy_data (root +:+ sfx) = false ->
  String.prefix legacy_user (root +:+ sfx) = false ->
  execve w (Some (lp +:+ sfx)) argv envp = execve w (Some (root +:+ sfx)) argv envp.
Proof.
  intros Hroot Hne Hlp Hfit Hd Hu.
  assert (Hleft : remapped_or w (Some (lp +:+ sfx)) = Some (root +:+ sfx)).
  { unfold remapped_or.
    rewrite (map_legacy_match w root lp sfx Hroot Hne Hlp).
    rewrite bool_decide_eq_true_2 by exact Hfit.
    rewrite take_bytes_all; [reflexivity|].
    pose proof (strlen_app root sfx) as Hlen. unfold strlen, PATH_MAX in *. lia. }
  assert (Hright : remapped_or w (Some (root +:+ sfx)) = Some (root +:+ sfx)).
  { unfold remapped_or. now rewrite (map_legacy_no_match w _ Hd Hu). }
  unfold execve. now rewrite Hleft, Hright.
Qed.

(** The two legacy forms of [/usr/bin/ls], with the root at [/usr]. *)
Lemma X22_legacy_path_is_served_as_its_rewrite_witness :
  execve (demo_world ["PREFIX=/usr"]) (Some (legacy_user +:+ "/bin/ls"))
    (Some [Some "ls"; None]) None
  = execve (demo_world ["PREFIX=/usr"]) (Some ("/usr" +:+ "/bin/ls"))
      (Some [Some "ls"; None]) None.
Proof.
  apply (X22_legacy_path_is_served_as_its_rewrite (demo_world ["PREFIX=/usr"])
           "/usr" legacy_user "/bin/ls");
    [reflexivity | reflexivity | right; reflexivity | reflexivity
     | reflexivity | reflexivity].
Defined.

(** ** More on the shebang parser *)

Section ParserFacts.

Lemma take_while_all_bytes (keep : ascii -> bool) (s : string) :
  all_bytes keep (take_while keep s) = true.
Proof.
  induction s as [|c r IH]; [reflexivity|].
  simpl. destruct (keep c) eqn:Hc; [|reflexivity].
  simpl. now rewrite Hc, IH.
Qed.

Lemma advance_while_stops (keep : ascii -> bool) (s : string) (c : ascii) (r : string) :
  advance_while keep s = String c r -> keep c = false.
Proof.
  induction s as [|d s IH]; [discriminate|].
  simpl. destruct (keep d) eqn:Hd; [exact IH|].
  intros [= <- _]. exact Hd.
Qed.

Lemma take_while_first (keep : ascii -> bool) (s : string) :
  keep NUL = false -> keep (deref s) = true -> is_empty (take_while keep s) = false.
Proof.
  intros Hnul. destruct s as [|c r]; simpl.
  - congruence.
  - intros ->. reflexivity.
Qed.

Lemma take_while_none (keep : ascii -> bool) (s : string) :
  keep NUL = false -> keep (deref s) = false -> take_while keep s = EmptyString.
Proof.
  intros Hnul. destruct s as [|c r]; simpl; [reflexivity|]. now intros ->.
Qed.

End ParserFacts.

(** X8: a file whose first 511 bytes are more than two, start with [#!]
    and, behind spaces and tabs, go on with [/] is accepted: the parser
    returns the interpreter token and the argument of those bytes, the
    argument being flagged as present exactly when it is not empty. *)
Theorem X8_parse_shebang_accepts
    (w : world) (p content : string) :
  fs_open w p = Some (RegularFile content) ->
  2 < strlen (take_bytes 511 content) ->
  byte_at (take_bytes 511 content) 0 = "#"%char ->
  byte_at (take_bytes 511 content) 1 = "!"%char ->
  deref (advance_while is_blank (ptr_add (take_bytes 511 content) 2)) = "/"%char ->
  parse_shebang w (Some p)
  = Some (ShebangInfo (shebang_interp_token (take_bytes 511 content))
            (shebang_arg_token (take_bytes 511 content))
            (negb (is_empty (shebang_arg_token (take_bytes 511 content))))).
Proof.
  intros Hopen Hn H0 H1 Hslash.
  unfold parse_shebang, open_read, shebang_interp_token, shebang_arg_token.
  rewrite Hopen.
  set (data := take_bytes 511 content) in *.
  destruct (Z.leb_spec (strlen data) 2) as [|_]; [lia|].
  assert (Hlen : (2 < String.length data)%nat) by (unfold strlen in Hn; lia).
  assert (Hdata : strlen data <= 511) by apply strlen_take_bytes.
  unfold byte_at at 1 2.
  rewrite <- !append_correct1 by lia.
  fold (byte_at data 0). fold (byte_at data 1). rewrite H0, H1.
  change (Ascii.eqb "#" "#") with true. change (Ascii.eqb "!" "!") with true.
  cbn [andb negb].
  rewrite ptr_add_terminated by lia.
  rewrite (advance_while_terminated is_blank) by reflexivity.
  set (P0 := advance_while is_blank (ptr_add data 2)) in *.
  assert (HP0 : strlen P0 <= strlen data).
  { pose proof (advance_while_strlen is_blank (ptr_add data 2)).
    pose proof (strlen_ptr_add data 2). subst P0. lia. }
  rewrite deref_terminated, Hslash.
  change (Ascii.eqb "/" "/") with true. cbn [negb].
  rewrite scanned_bytes, scanned_strlen.
  rewrite (take_while_terminated interp_char) by reflexivity.
  rewrite (advance_while_terminated interp_char) by reflexivity.
  rewrite (advance_while_terminated is_blank) by reflexivity.
  set (E0 := advance_while is_blank (advance_while interp_char P0)).
  assert (HE0 : strlen E0 <= strlen data).
  { pose proof (advance_while_strlen is_blank (advance_while interp_char P0)).
    pose proof (advance_while_strlen interp_char P0). subst E0. lia. }
  pose proof (take_while_strlen interp_char P0) as Htok.
  assert (Hpos : 0 < strlen (take_while interp_char P0)).
  { apply is_empty_false_strlen, take_while_first; [reflexivity|]. now rewrite Hslash. }
  destruct (Z.eqb_spec (strlen (take_while interp_char P0)) 0); [lia|].
  destruct (Z.geb_spec (strlen (take_while interp_char P0)) PATH_MAX);
    [unfold PATH_MAX in *; lia|].
  cbn [orb].
  rewrite deref_terminated.
  rewrite scanned_bytes, scanned_strlen.
  rewrite (take_while_terminated arg_char) by reflexivity.
  pose proof (take_while_strlen arg_char E0) as Harg.
  destruct (arg_char (deref E0)) eqn:Hac.
  - pose proof (take_while_first arg_char E0 eq_refl Hac) as Hne.
    pose proof (is_empty_false_strlen _ Hne) as Hapos.
    destruct (Z.ltb_spec 0 (strlen (take_while arg_char E0))); [|lia].
    destruct (Z.ltb_spec (strlen (take_while arg_char E0)) PATH_MAX);
      [|unfold PATH_MAX in *; lia].
    cbn [andb]. now rewrite Hne.
  - now rewrite (take_while_none arg_char E0 eq_refl Hac).
Qed.

(** The script [/usr/bin/hello.py] starts with [#!/usr/bin/python3 -u]. *)
Lemma X8_parse_shebang_accepts_witness :
  parse_shebang (demo_world []) (Some "/usr/bin/hello.py")
  = Some (ShebangInfo "/usr/bin/python3" "-u" true).
Proof.
  apply (X8_parse_shebang_accepts (demo_world []) "/usr/bin/hello.py"
           ("#!/usr/bin/python3 -u" +:+ LF +:+ "print(1)" +:+ LF)); reflexivity.
Defined.

(** X9: the components of a successful parse are well formed: the
    interpreter begins with [/] and holds no space, tab, newline, return
    or [NUL]; the argument holds no newline, return or [NUL] and does not
    begin with a space or a tab, while spaces and tabs inside it and at
    its end are kept. *)
Theorem X9_parsed_components_are_well_formed
    (w : world) (p : string) (sb : shebang_info_t) :
  parse_shebang w (Some p) = Some sb ->
  deref (interpreter sb) = "/"%char
  /\ all_bytes interp_char (interpreter sb) = true
  /\ all_bytes arg_char (arg sb) = true
  /\ is_blank (deref (arg sb)) = false.
Proof.
  intros Hparse.
  destruct (parse_shebang_inv w p sb Hparse)
    as (content & _ & _ & _ & _ & Hslash & Hinterp & Harg & _).
  split; [exact Hslash|].
  split; [rewrite Hinterp; apply take_while_all_bytes|].
  split; [rewrite Harg; apply take_while_all_bytes|].
  rewrite Harg. unfold shebang_arg_token.
  destruct (advance_while is_blank _) as [|c r] eqn:Hadv; [reflexivity|].
  pose proof (advance_while_stops is_blank _ c r Hadv) as Hc.
  simpl. destruct (arg_char c); [exact Hc|reflexivity].
Qed.

(** The script [/usr/bin/hello.py] again. *)
Lemma X9_parsed_components_are_well_formed_witness :
  deref (interpreter (ShebangInfo "/usr/bin/python3" "-u" true)) = "/"%char
  /\ all_bytes interp_char (interpreter (ShebangInfo "/usr/bin/python3" "-u" true)) = true
  /\ all_bytes arg_char (arg (ShebangInfo "/usr/bin/python3" "-u" true)) = true
  /\ is_blank (deref (arg (ShebangInfo "/usr/bin/python3" "-u" true))) = false.
Proof.
  apply (X9_parsed_components_are_well_formed (demo_world []) "/usr/bin/hello.py").
  reflexivity.
Defined.

(** ** More on the directory search and the entry points *)

Section SearchFacts.

Variable w : world.
Variable argv : argv_t.

Lemma candidates_of_nonempty_segments (file : string) (segments : list string) :
  map (candidate_of file) (filter (fun seg => is_empty seg = false) segments)
  = map (fun dir => dir +:+ "/" +:+ file)
        (filter (fun seg => is_empty seg = false) segments).
Proof.
  induction segments as [|seg segs IH]; [reflexivity|].
  destruct (is_empty seg) eqn:Hseg.
  - rewrite filter_cons_False by congruence. exact IH.
  - rewrite filter_cons_True by exact Hseg. cbn [map]. rewrite IH.
    unfold candidate_of. now rewrite Hseg.
Qed.

Lemma no_candidate_fits (file : string) (segments : list string) :
  PATH_MAX - 2 <= strlen file ->
  filter (fun c => fits_path_max c = true)
    (map (candidate_of file) (filter (fun seg => is_empty seg = false) segments)) = [].
Proof.
  intros Hlong. induction segments as [|seg segs IH]; [reflexivity|].
  destruct (is_empty seg) eqn:Hseg.
  - rewrite filter_cons_False by congruence. exact IH.
  - rewrite filter_cons_True by exact Hseg. cbn [map].
    rewrite filter_cons_False; [exact IH|].
    unfold fits_path_max, candidate_of. rewrite Hseg, !strlen_app.
    change (strlen "/") with 1.
    pose proof (is_empty_false_strlen seg Hseg).
    destruct (Z.ltb_spec (strlen seg + (1 + strlen file)) PATH_MAX); [lia|discriminate].
Qed.

Lemma try_candidates_first_success (envp : envp_t) (c : string)
    (before after : list string) :
  forall saved : Z,
    Forall (fun b => result (execve w (Some b) argv envp) <> None) before ->
    result (execve w (Some c) argv envp) = None ->
    try_candidates w (before ++ c :: after) argv envp saved
    = Outcome (concat (map (fun b => calls (execve w (Some b) argv envp)) before)
               ++ calls (execve w (Some c) argv envp)) None.
Proof.
  induction before as [|b bs IH]; intros saved Hfail Hok.
  - cbn [app try_candidates map concat]. rewrite Hok.
    destruct (execve w (Some c) argv envp) as [cs r]. cbn in Hok |- *. now subst r.
  - inversion Hfail as [|? ? Hb Hbs]; subst.
    cbn [app try_candidates map concat].
    destruct (result (execve w (Some b) argv envp)) as [e|]; [|congruence].
    rewrite (IH _ Hbs Hok). cbn [calls result]. now rewrite app_assoc.
Qed.

Lemma try_candidates_unresolved (envp : envp_t) (candidates : list string) :
  dlsym_execve w = None ->
  forall saved : Z,
    try_candidates w candidates argv envp saved
    = Outcome [] (Some (match candidates with [] => saved | _ :: _ => ENOSYS end)).
Proof.
  intros Hdl. induction candidates as [|c cs IH]; intros saved; [reflexivity|].
  cbn [try_candidates]. unfold execve at 1 2. rewrite Hdl. cbn [fail_with result calls].
  rewrite IH. change (remember_errno ENOSYS saved) with ENOSYS.
  destruct cs; reflexivity.
Qed.

Lemma execve_envp_irrelevant (filename : option string) (envp : envp_t) :
  execve w filename argv (envp_or_environ w envp) = execve w filename argv envp.
Proof.
  unfold execve, execve_via_linker, exec_script_via_linker.
  now rewrite envp_or_environ_idem.
Qed.

End SearchFacts.

(** X11: for a name without separator, whatever the search list holds,
    the search submits one candidate [directory + "/" + name] for each
    segment of the list that is not empty, in the order of the list,
    leaving out those of [PATH_MAX] bytes or more; an empty segment (a
    leading, trailing or doubled [:]) gives no candidate. *)
Theorem X11_search_submits_the_nonempty_segments
    (w : world) (file : string) (argv : argv_t) (envp : envp_t) :
  is_empty file = false ->
  strchr file "/" = None ->
  strdup_ok w (search_list w) = true ->
  search_path_and_exec w (Some file) argv envp
  = Some (try_candidates w
            (filter (fun c => fits_path_max c = true)
               (map (fun dir => dir +:+ "/" +:+ file)
                  (filter (fun seg => is_empty seg = false)
                     (split_colon (search_list w)))))
            argv envp ENOENT).
Proof.
  intros Hfile Hslash Hdup.
  rewrite (search_path_and_exec_search w argv file envp Hfile Hslash), Hdup.
  cbn [negb]. unfold submitted_candidates, nonempty_segments.
  now rewrite candidates_of_nonempty_segments.
Qed.

(** The list [:/a::/b:] and the name [tool]. *)
Lemma X11_search_submits_the_nonempty_segments_witness :
  search_path_and_exec (demo_world ["PATH=:/a::/b:"]) (Some "tool")
    (Some [Some "tool"; None]) None
  = Some (try_candidates (demo_world ["PATH=:/a::/b:"])
            (filter (fun c => fits_path_max c = true)
               (map (fun dir => dir +:+ "/" +:+ "tool")
                  (filter (fun seg => is_empty seg = false)
                     (split_colon (search_list (demo_world ["PATH=:/a::/b:"]))))))
            (Some [Some "tool"; None]) None ENOENT).
Proof.
  apply (X11_search_submits_the_nonempty_segments (demo_world ["PATH=:/a::/b:"]) "tool");
    reflexivity.
Defined.

(** X12: the first attempt that replaces the process image ends the
    search: the candidates before it have been attempted in order, those
    behind it are not attempted. *)
Theorem X12_first_success_ends_the_search
    (w : world) (file : string) (argv : argv_t) (envp : envp_t)
    (c : string) (before after : list string) :
  is_empty file = false ->
  strchr file "/" = None ->
  strdup_ok w (search_list w) = true ->
  submitted_candidates (search_list w) file = before ++ c :: after ->
  Forall (fun b => result (execve w (Some b) argv envp) <> None) before ->
  result (execve w (Some c) argv envp) = None ->
  search_path_and_exec w (Some file) argv envp
  = Some (Outcome
            (concat (map (fun b => calls (execve w (Some b) argv envp)) before)
             ++ calls (execve w (Some c) argv envp))
            None).
Proof.
  intros Hfile Hslash Hdup Hcands Hfail Hok.
  rewrite (search_path_and_exec_search w argv file envp Hfile Hslash), Hdup.
  cbn [negb]. rewrite Hcands.
  now rewrite (try_candidates_first_success w argv envp c before after ENOENT Hfail Hok).
Qed.

(** The list [/a:/b:/c], the attempt on [/b/tool] succeeding. *)
Lemma X12_first_success_ends_the_search_witness :
  search_path_and_exec (second_succeeds_world ["PATH=/a:/b:/c"]) (Some "tool")
    (Some [Some "tool"; None]) None
  = Some (Outcome
            (concat (map (fun b => calls (execve (second_succeeds_world ["PATH=/a:/b:/c"])
                                            (Some b) (Some [Some "tool"; None]) None))
                       ["/a/tool"])
             ++ calls (execve (second_succeeds_world ["PATH=/a:/b:/c"])
                         (Some "/b/tool") (Some [Some "tool"; None]) None))
            None).
Proof.
  apply (X12_first_success_ends_the_search (second_succeeds_world ["PATH=/a:/b:/c"])
           "tool" (Some [Some "tool"; None]) None "/b/tool" ["/a/tool"] ["/c/tool"]);
    try reflexivity.
  repeat constructor. vm_compute. discriminate.
Defined.

(** X13: when [dlsym] finds no underlying [execve], every [execve] fails
    with [ENOSYS] without a call, and a search fails without a call too,
    with [ENOSYS] as soon as it has a candidate to submit and with
    [ENOENT] when it has none. *)
Theorem X13_without_an_underlying_execve
    (w : world) (file : string) (argv : argv_t) (envp : envp_t) :
  dlsym_execve w = None ->
  (forall filename : option string,
      execve w filename argv envp = Outcome [] (Some ENOSYS))
  /\ (is_empty file = false ->
      strchr file "/" = None ->
      strdup_ok w (search_list w) = true ->
      search_path_and_exec w (Some file) argv envp
      = Some (Outcome []
                (Some (match submitted_candidates (search_list w) file with
                       | [] => ENOENT
                       | _ :: _ => ENOSYS
                       end)))).
Proof.
  intros Hdl. split.
  - intros filename. unfold execve. now rewrite Hdl.
  - intros Hfile Hslash Hdup.
    rewrite (search_path_and_exec_search w argv file envp Hfile Hslash), Hdup.
    cbn [negb]. now rewrite (try_candidates_unresolved w argv envp _ Hdl).
Qed.

(** The list [/a:/b] without an underlying [execve]. *)
Lemma X13_without_an_underlying_execve_witness :
  execve (unresolved_world ["PATH=/a:/b"]) (Some "/a/tool") (Some [Some "tool"; None]) None
  = Outcome [] (Some ENOSYS)
  /\ search_path_and_exec (unresolved_world ["PATH=/a:/b"]) (Some "tool")
       (Some [Some "tool"; None]) None
     = Some (Outcome [] (Some ENOSYS)).
Proof.
  destruct (X13_without_an_underlying_execve (unresolved_world ["PATH=/a:/b"]) "tool"
              (Some [Some "tool"; None]) None eq_refl) as [Hexec Hsearch].
  split; [apply Hexec|].
  apply Hsearch; reflexivity.
Defined.

(** X14: a name without separator that is too long for any candidate
    ([PATH_MAX - 2] bytes or more) is never submitted: the search fails
    with [ENOENT] without a call of the underlying [execve], whatever the
    search list holds. *)
Theorem X14_name_too_long_for_any_candidate
    (w : world) (file : string) (argv : argv_t) (envp : envp_t) :
  is_empty file = false ->
  strchr file "/" = None ->
  strdup_ok w (search_list w) = true ->
  PATH_MAX - 2 <= strlen file ->
  search_path_and_exec w (Some file) argv envp = Some (Outcome [] (Some ENOENT)).
Proof.
  intros Hfile Hslash Hdup Hlong.
  rewrite (search_path_and_exec_search w argv file envp Hfile Hslash), Hdup.
  cbn [negb]. unfold submitted_candidates, nonempty_segments.
  now rewrite (no_candidate_fits file _ Hlong).
Qed.

(** A name of 4096 bytes and the list [/a:/b]. *)
Lemma X14_name_too_long_for_any_candidate_witness :
  search_path_and_exec (demo_world ["PATH=/a:/b"]) (Some long_name)
    (Some [Some "x"; None]) None
  = Some (Outcome [] (Some ENOENT)).
Proof.
  apply (X14_name_too_long_for_any_candidate (demo_world ["PATH=/a:/b"]) long_name);
    try reflexivity.
  vm_compute. discriminate.
Defined.

(** X15: an environment pointer that is not [NULL] is handed on as it
    is: every call of the underlying [execve] made by [execve] or by
    [execvpe] carries the caller's block, never [environ]. *)
Theorem X15_caller_environment_is_handed_on
    (w : world) (filename : option string) (argv : argv_t) (env : list string) :
  Forall (fun c => call_envp c = Some env) (calls (execve w filename argv (Some env)))
  /\ (exists o : outcome,
        execvpe w filename argv (Some env) = Some o
        /\ Forall (fun c => call_envp c = Some env) (calls o)).
Proof.
  split; [exact (execve_envp w argv filename (Some env))|].
  exact (search_path_and_exec_envp w argv filename (Some env)).
Qed.

(** X16: [execv] is [execve] with a [NULL] environment pointer, and
    [execvp] is [execvpe] with a [NULL] environment pointer. *)
Theorem X16_entry_points_without_environment
    (w : world) (path : option string) (argv : argv_t) :
  execv w path argv = execve w path argv None
  /\ execvp w path argv = execvpe w path argv None.
Proof.
  split; [|reflexivity]. unfold execv.
  exact (execve_envp_irrelevant w argv path None).
Qed.

(** X21: a name that holds a separator is not searched for: [execvpe]
    and [execvp] then do what [execve] and [execv] do with the same
    arguments, without looking at [PATH]; a [NULL] or empty name fails
    with [ENOENT] without a call. *)
Theorem X21_names_that_are_not_searched
    (w : world) (file : string) (argv : argv_t) (envp : envp_t) :
  (is_Some (strchr file "/") ->
   execvpe w (Some file) argv envp = Some (execve w (Some file) argv envp)
   /\ execvp w (Some file) argv = Some (execv w (Some file) argv))
  /\ execvpe w None argv envp = Some (Outcome [] (Some ENOENT))
  /\ execvpe w (Some EmptyString) argv envp = Some (Outcome [] (Some ENOENT)).
Proof.
  split; [|split; reflexivity].
  intros [rest Hslash].
  assert (Hfile : is_empty file = false) by (destruct file; [discriminate Hslash|reflexivity]).
  unfold execvpe, execvp, execv, search_path_and_exec. rewrite Hfile, Hslash.
  split; [|reflexivity]. f_equal. apply execve_envp_irrelevant.
Qed.

(** The name [./tool]. *)
Lemma X21_names_that_are_not_searched_witness :
  execvpe (demo_world ["PATH=/a:/b"]) (Some "./tool") (Some [Some "tool"; None]) None
  = Some (execve (demo_world ["PATH=/a:/b"]) (Some "./tool") (Some [Some "tool"; None]) None)
  /\ execvp (demo_world ["PATH=/a:/b"]) (Some "./tool") (Some [Some "tool"; None])
     = Some (execv (demo_world ["PATH=/a:/b"]) (Some "./tool") (Some [Some "tool"; None])).
Proof.
  destruct (X21_names_that_are_not_searched (demo_world ["PATH=/a:/b"]) "./tool"
              (Some [Some "tool"; None]) None) as [Hslash _].
  apply Hslash. vm_compute. eauto.
Defined.
